(** * papersthisweek: the ingestion and retrieval core

    A shallow embedding of [mcp_server.py] and [paper_sources.py]: the two
    exposed operations [update_knowledge_base] and [query_rag], the source
    adapters and aggregator, the document enricher, the retry loop around
    the embedding step, and the process-wide [vector_db].

    Conventions of the embedding.
    - A Python [str] is a [string] holding the UTF-8 bytes of its code
      points, a lone surrogate (which a [str] may hold, and UTF-8 cannot
      encode) by the three bytes that the same scheme gives it. Literals are
      written as in the source. The characters of a [str] are its
      [code_points]: lengths, slices and whitespace go by them. [lower] and
      [upper] map the ASCII letters and leave every other character alone,
      where Python follows the Unicode case tables.
    - A Python [int] is a [Z]; [//] is [Z.div] (both round towards minus
      infinity), and raises [ZeroDivisionError] on a zero divisor.
    - An exception is a value of type [exn]: its class and the text [str(e)]
      gives. Only instances of [Exception] are modelled (what
      [except Exception] catches); [KeyboardInterrupt] and [SystemExit] are
      outside the model.
    - Code that can raise, print, sleep, call the outside world or assign the
      global [vector_db] lives in the monad [M]: it threads the process state
      (the index and the trace of effects so far) and returns [Ok] or [Err].
    - [print] writes to an output stream that takes every line, and the
      functions are first given on such a stream. The section [OutputStream]
      gives them again on a stream that may refuse a line ([print_on]), where
      a [print] can raise; on the stream that takes every line the two agree.
    - What the outside world answers during one call (environment variables,
      installed modules, the paper sources, the embedding provider) is a
      [world]; the functions take it as their first argument. Within one
      call a source answers the same request the same way; the answer of the
      embedding provider depends on the attempt. *)

From Stdlib Require Import ZArith QArith_base String Ascii DecimalString.
From stdpp Require Import gmap strings list.

Set Warnings "-register-all".
Local Open Scope Z_scope.

(** ** Python strings *)

Definition nl : string := String (ascii_of_nat 10) "".

Definition str_of_Z (z : Z) : string := NilZero.string_of_int (Z.to_int z).

Definition is_upper (c : ascii) : bool :=
  let n := nat_of_ascii c in (65 <=? n)%nat && (n <=? 90)%nat.

Definition is_lower (c : ascii) : bool :=
  let n := nat_of_ascii c in (97 <=? n)%nat && (n <=? 122)%nat.

Definition lower_char (c : ascii) : ascii :=
  if is_upper c then ascii_of_nat (nat_of_ascii c + 32) else c.

Definition upper_char (c : ascii) : ascii :=
  if is_lower c then ascii_of_nat (nat_of_ascii c - 32) else c.

Fixpoint map_chars (f : ascii → ascii) (s : string) : string :=
  match s with
  | EmptyString => EmptyString
  | String c s' => String (f c) (map_chars f s')
  end.

Definition lower : string → string := map_chars lower_char.
Definition upper : string → string := map_chars upper_char.

(** A continuation byte of UTF-8: [10xxxxxx]. *)
Definition is_continuation (c : ascii) : bool :=
  let n := nat_of_ascii c in (128 <=? n)%nat && (n <? 192)%nat.

Definition starts_with_continuation (s : string) : bool :=
  match s with
  | EmptyString => false
  | String c _ => is_continuation c
  end.

(** The characters (code points) of a [str], each held as the bytes of its
    encoding: a first byte and the continuation bytes after it. *)
Fixpoint code_points (s : string) : list string :=
  match s with
  | EmptyString => []
  | String c s' =>
      if starts_with_continuation s' then
        match code_points s' with
        | point :: points => String c point :: points
        | [] => [String c EmptyString]
        end
      else String c EmptyString :: code_points s'
  end.

(** The [str] made of the characters [points]. *)
Definition join_points (points : list string) : string :=
  foldr String.append EmptyString points.

(** [len(s)] *)
Definition char_length (s : string) : nat := length (code_points s).

(** [s[:n]] and [s[n:]] for [0 <= n]. *)
Definition chars_to (n : nat) (s : string) : string :=
  join_points (take n (code_points s)).

Definition chars_from (n : nat) (s : string) : string :=
  join_points (drop n (code_points s)).

(** The character whose encoding is [bytes]. *)
Definition point_of (bytes : list nat) : string :=
  string_of_list_ascii (ascii_of_nat <$> bytes).

(** The characters [str.strip] removes, those [str.isspace] holds of:
    U+0009..U+000D, U+001C..U+0020, U+0085, U+00A0, U+1680, U+2000..U+200A,
    U+2028, U+2029, U+202F, U+205F and U+3000. *)
Definition whitespace : list string :=
  point_of <$>
    [[9]; [10]; [11]; [12]; [13]; [28]; [29]; [30]; [31]; [32];
     [194; 133]; [194; 160]; [225; 154; 128];
     [226; 128; 128]; [226; 128; 129]; [226; 128; 130]; [226; 128; 131];
     [226; 128; 132]; [226; 128; 133]; [226; 128; 134]; [226; 128; 135];
     [226; 128; 136]; [226; 128; 137]; [226; 128; 138];
     [226; 128; 168]; [226; 128; 169]; [226; 128; 175];
     [226; 129; 159]; [227; 128; 128]]%nat.

Definition is_space (point : string) : bool :=
  existsb (String.eqb point) whitespace.

Fixpoint lstrip_points (points : list string) : list string :=
  match points with
  | [] => []
  | point :: points' =>
      if is_space point then lstrip_points points' else points
  end.

Fixpoint rstrip_points (points : list string) : list string :=
  match points with
  | [] => []
  | point :: points' =>
      match rstrip_points points' with
      | [] => if is_space point then [] else [point]
      | kept => point :: kept
      end
  end.

(** [s.strip()] *)
Definition strip (s : string) : string :=
  join_points (lstrip_points (rstrip_points (code_points s))).

(** [s.split(sep)] for a one-character separator. *)
Fixpoint split (sep : ascii) (s : string) : list string :=
  match s with
  | EmptyString => [EmptyString]
  | String c s' =>
      if Ascii.eqb c sep then EmptyString :: split sep s'
      else match split sep s' with
           | piece :: pieces => String c piece :: pieces
           | [] => [String c EmptyString]
           end
  end.

(** [sep.join(pieces)] *)
Definition join (sep : string) (pieces : list string) : string :=
  String.concat sep pieces.

(** [needle in hay] *)
Fixpoint contains (needle hay : string) : bool :=
  String.prefix needle hay ||
  match hay with
  | EmptyString => false
  | String _ hay' => contains needle hay'
  end.

(** [s.replace(old, new)] for a non-empty [old]: [skip] counts the characters
    of an occurrence of [old] that was just replaced and is still to be
    passed over. *)
Fixpoint replace_from (old new s : string) (skip : nat) : string :=
  match s with
  | EmptyString => EmptyString
  | String c s' =>
      match skip with
      | S k => replace_from old new s' k
      | O =>
          if String.prefix old s
          then new +:+ replace_from old new s' (String.length old - 1)
          else String c (replace_from old new s' 0)
      end
  end.

Definition replace (old new s : string) : string := replace_from old new s 0.

(** [l[:n]] on a list, for any integer [n]: a negative bound counts from the
    end. *)
Definition list_slice_to {A} (n : Z) (l : list A) : list A :=
  if n <? 0 then take (Z.to_nat (Z.of_nat (length l) + n)) l
  else take (Z.to_nat n) l.

(** ** Exceptions and results *)

Inductive exn_class :=
| Exception | ImportError | ValueError | ConnectionError | TypeError
| AttributeError | KeyError | ZeroDivisionError
| APIError | RateLimitError | UnicodeEncodeError.

Record exn := Raised { class_of : exn_class; str : string }.

Definition class_eqb (a b : exn_class) : bool :=
  match a, b with
  | Exception, Exception | ImportError, ImportError | ValueError, ValueError
  | ConnectionError, ConnectionError | TypeError, TypeError
  | AttributeError, AttributeError | KeyError, KeyError
  | ZeroDivisionError, ZeroDivisionError
  | APIError, APIError | RateLimitError, RateLimitError
  | UnicodeEncodeError, UnicodeEncodeError => true
  | _, _ => false
  end.

(** [isinstance(e, cls)] for the classes the code tests. In the [openai]
    package [RateLimitError] derives from [APIError]; [UnicodeEncodeError]
    derives from [ValueError]; every class derives from [Exception]. *)
Definition isinstance (e : exn) (cls : exn_class) : bool :=
  match cls with
  | Exception => true
  | APIError =>
      class_eqb (class_of e) APIError || class_eqb (class_of e) RateLimitError
  | ValueError =>
      class_eqb (class_of e) ValueError
      || class_eqb (class_of e) UnicodeEncodeError
  | _ => class_eqb (class_of e) cls
  end.

Inductive result (A : Type) :=
| Ok (a : A)
| Err (e : exn).
Arguments Ok {A} a.
Arguments Err {A} e.

#[export] Instance result_ret : MRet result := λ A a, Ok a.
#[export] Instance result_bind : MBind result := λ A B f r,
  match r with
  | Ok a => f a
  | Err e => Err e
  end.

Fixpoint result_map {A B} (f : A → result B) (l : list A) : result (list B) :=
  match l with
  | [] => Ok []
  | x :: l' => y ← f x; ys ← result_map f l'; Ok (y :: ys)
  end.

(** [a // b] *)
Definition floordiv (a b : Z) : result Z :=
  if b =? 0 then Err (Raised ZeroDivisionError "integer division or modulo by zero")
  else Ok (a / b).

(** ** Data model *)

(** A Python value as the code meets it: what [response.json()] returns, and
    what a [Document]'s [metadata] dict holds. Numbers are integers, as the
    one numeric field the code reads ([year]) is. *)
Inductive json :=
| JNull
| JBool (b : bool)
| JNum (z : Z)
| JStr (s : string)
| JArr (items : list json)
| JObj (fields : gmap string json).

Record Document := mkDocument {
  page_content : string;
  metadata : gmap string json;
}.

(** The embedding model objects [get_embeddings] can build. *)
Inductive Embeddings :=
| OpenAIEmbeddings (model : string)
| GoogleGenerativeAIEmbeddings (model google_api_key : string)
| OllamaEmbeddings (model base_url : string).

Definition EmbeddingVector := list Q.

(** Modelled from the spec: the [FAISS] vector store of [langchain_community],
    whose source is not part of the repository. Section 3 and 4.6 of the spec:
    the index holds (vector, fragment) pairs, one vector per fragment, and is
    append-only. The embedding model is the one given when the index was
    built: [add_documents] takes none. *)
Record FAISS := mkFAISS {
  embedding_function : Embeddings;
  index : list (EmbeddingVector * Document);
}.

Record http_params := mkParams {
  param_query : string;
  param_limit : Z;
  param_fields : string;
}.

Record response := mkResponse {
  status_code : Z;
  json_body : result json;   (* what [response.json()] returns or raises *)
}.

(** What the process does that the outside can see, in order. *)
Inductive event :=
| Print (line : string)
| Sleep (seconds : Z)
| ArxivLoad (query : string) (load_max_docs : Z)
| HttpGet (url : string) (params : http_params)
    (headers : list (string * string)) (timeout : Z)
| EmbedDocuments (embeddings : Embeddings) (texts : list string)
| SimilaritySearch (question : string) (k : Z).

(** The process state: the module-level [vector_db] and the trace. *)
Record state := mkState {
  vector_db : option FAISS;
  trace : list event;
}.

Definition initial_state : state := {| vector_db := None; trace := [] |}.

(** What the outside world answers during one call. *)
Record world := mkWorld {
  getenv : string → option string;               (* [os.getenv(name)] *)
  importable : string → bool;                    (* is the module installed *)
  py_repr : json → string;                       (* [str(v)] of a list or dict *)
  arxiv_answer : string → Z → result (list Document);
  http_answer : string → http_params → list (string * string) → Z
                 → result response;
  new_embeddings : Embeddings → option exn;      (* the constructor's failure *)
  embed_fault : Embeddings → Z → list string → option exn;
      (* the failure of the embedding request made at a given attempt *)
  embed_text : Embeddings → string → EmbeddingVector;
  search_answer : FAISS → string → Z → result (list Document);
}.

(** ** The monad of effectful code *)

Definition M (A : Type) : Type := state → state * result A.

#[export] Instance M_ret : MRet M := λ A a st, (st, Ok a).
#[export] Instance M_bind : MBind M := λ A B f m st,
  match m st with
  | (st', Ok a) => f a st'
  | (st', Err e) => (st', Err e)
  end.

Definition raise {A} (e : exn) : M A := λ st, (st, Err e).

Definition lift {A} (r : result A) : M A := λ st, (st, r).

Definition emit (ev : event) : M unit :=
  λ st, ({| vector_db := vector_db st; trace := trace st ++ [ev] |}, Ok tt).

(** [print(line)] on an output stream that takes every line. *)
Definition print (line : string) : M unit := emit (Print line).

(** [print(line)] on an output stream that may refuse the line: [print]
    raises [UnicodeEncodeError] for a text that the encoding of the stream
    cannot take, [ValueError] on a closed stream, [OSError] on a broken one.
    [stdout line] is what the stream raises for [line], if anything. *)
Definition print_on (stdout : string → option exn) (line : string) : M unit :=
  match stdout line with
  | Some e => raise e
  | None => print line
  end.

(** The stream that takes every line. *)
Definition accepting : string → option exn := λ _, None.

(** A surrogate, U+D800..U+DFFF: a [str] may hold one, UTF-8 has no encoding
    for it. The model holds it as the bytes [ED A0..BF 80..BF]. *)
Definition is_surrogate (point : string) : bool :=
  match point with
  | String c1 (String c2 (String _ EmptyString)) =>
      (nat_of_ascii c1 =? 237)%nat && (160 <=? nat_of_ascii c2)%nat
  | _ => false
  end.

Definition hex_digit (n : nat) : string :=
  String (ascii_of_nat (if (n <? 10)%nat then 48 + n else 87 + n)) EmptyString.

(** The escape Python's error messages show a surrogate as. *)
Definition surrogate_escape (point : string) : string :=
  match point with
  | String _ (String c2 (String c3 _)) =>
      let b2 := (nat_of_ascii c2 - 128)%nat in
      let b3 := (nat_of_ascii c3 - 128)%nat in
      "\ud" +:+ hex_digit (b2 / 4)%nat
      +:+ hex_digit ((b2 mod 4) * 4 + b3 / 16)%nat +:+ hex_digit (b3 mod 16)%nat
  | _ => EmptyString
  end.

(** The number of surrogates [points] starts with. *)
Fixpoint surrogate_run (points : list string) : nat :=
  match points with
  | point :: points' =>
      if is_surrogate point then S (surrogate_run points') else O
  | [] => O
  end.

(** The first surrogate of [points], counting positions from [i]: its
    position, the character, and how many surrogates follow it directly. *)
Fixpoint first_surrogate (i : nat) (points : list string)
    : option (nat * string * nat) :=
  match points with
  | [] => None
  | point :: points' =>
      if is_surrogate point then Some (i, point, surrogate_run points')
      else first_surrogate (S i) points'
  end.

(** The standard output of the process, encoded in UTF-8 as it is by
    default: it takes every line but one that holds a surrogate. *)
Definition utf8_stdout (line : string) : option exn :=
  match first_surrogate 0 (code_points line) with
  | None => None
  | Some (i, point, O) =>
      Some (Raised UnicodeEncodeError
              ("'utf-8' codec can't encode character '" +:+ surrogate_escape point
               +:+ "' in position " +:+ str_of_Z (Z.of_nat i)
               +:+ ": surrogates not allowed"))
  | Some (i, _, S more) =>
      Some (Raised UnicodeEncodeError
              ("'utf-8' codec can't encode characters in position "
               +:+ str_of_Z (Z.of_nat i) +:+ "-" +:+ str_of_Z (Z.of_nat (i + S more))
               +:+ ": surrogates not allowed"))
  end.

(** [time.sleep(seconds)] *)
Definition sleep (seconds : Z) : M unit := emit (Sleep seconds).

Definition get_vector_db : M (option FAISS) := λ st, (st, Ok (vector_db st)).

Definition set_vector_db (db : FAISS) : M unit :=
  λ st, ({| vector_db := Some db; trace := trace st |}, Ok tt).

(** [try: body except cls as e: handler]; [catches] says whether the raised
    exception is an instance of the class of the clause. *)
Definition try_except {A} (body : M A) (catches : exn → bool)
    (handler : exn → M A) : M A := λ st,
  match body st with
  | (st', Ok a) => (st', Ok a)
  | (st', Err e) => if catches e then handler e st' else (st', Err e)
  end.

(** [try: body except cls1: handler1 except cls2 as e: handler2]: the first
    clause that matches handles the exception, and what a handler raises is
    not handled by the other clause. *)
Definition try_except2 {A} (body : M A) (catches1 : exn → bool)
    (handler1 : exn → M A) (catches2 : exn → bool) (handler2 : exn → M A)
    : M A := λ st,
  match body st with
  | (st', Ok a) => (st', Ok a)
  | (st', Err e) =>
      if catches1 e then handler1 e st'
      else if catches2 e then handler2 e st'
      else (st', Err e)
  end.

Definition any_Exception (e : exn) : bool := isinstance e Exception.
Definition an_ImportError (e : exn) : bool := isinstance e ImportError.

(** [import module] / [from module import names] *)
Definition import_ (w : world) (module : string) : M unit :=
  if importable w module then mret tt
  else raise (Raised ImportError ("No module named '" +:+ module +:+ "'")).

Fixpoint for_each {A B} (body : A → M B) (l : list A) : M (list B) :=
  match l with
  | [] => mret []
  | x :: l' => y ← body x; ys ← for_each body l'; mret (y :: ys)
  end.

(** How control leaves the body of a [for] loop that sits in a function
    returning a [str]. *)
Inductive ctl :=
| Normal
| Continue
| Break
| Return (value : string).

(** [for i in items: body]; [Some v] when the body executed [return v],
    [None] when the loop ended (exhausted, or left by [break]). *)
Fixpoint for_loop {A} (body : A → M ctl) (items : list A) : M (option string) :=
  match items with
  | [] => mret None
  | i :: items' =>
      c ← body i;
      match c with
      | Normal | Continue => for_loop body items'
      | Break => mret None
      | Return v => mret (Some v)
      end
  end.

(** [range(n)] *)
Definition range (n : Z) : list Z := Z.of_nat <$> seq 0 (Z.to_nat n).

(** ** Python values *)

(** [type(v).__name__] *)
Definition type_name (v : json) : string :=
  match v with
  | JNull => "NoneType"
  | JBool _ => "bool"
  | JNum _ => "int"
  | JStr _ => "str"
  | JArr _ => "list"
  | JObj _ => "dict"
  end.

(** [bool(v)] *)
Definition truthy (v : json) : bool :=
  match v with
  | JNull => false
  | JBool b => b
  | JNum z => negb (z =? 0)
  | JStr s => negb (String.eqb s "")
  | JArr items => match items with [] => false | _ => true end
  | JObj fields => negb (bool_decide (fields = ∅))
  end.

(** [str(v)], which is also what an f-string puts for [{v}]; the text of a
    list or of a dict is the world's. *)
Definition py_str (w : world) (v : json) : string :=
  match v with
  | JNull => "None"
  | JBool true => "True"
  | JBool false => "False"
  | JNum z => str_of_Z z
  | JStr s => s
  | JArr _ | JObj _ => py_repr w v
  end.

(** The messages of the interpreter's own errors are those of CPython 3.11. *)
Definition no_attribute (v : json) (attr : string) : exn :=
  Raised AttributeError
    ("'" +:+ type_name v +:+ "' object has no attribute '" +:+ attr +:+ "'").

(** [v.get(key, default)] *)
Definition dict_get (v : json) (key : string) (default : json) : result json :=
  match v with
  | JObj fields => Ok (from_option id default (fields !! key))
  | _ => Err (no_attribute v "get")
  end.

(** [key in v] *)
Definition py_in (key : string) (v : json) : result bool :=
  match v with
  | JObj fields => Ok (bool_decide (is_Some (fields !! key)))
  | JArr items =>
      Ok (existsb (λ x, match x with JStr s => String.eqb s key | _ => false end)
            items)
  | JStr s => Ok (contains key s)
  | _ => Err (Raised TypeError
                ("argument of type '" +:+ type_name v +:+ "' is not iterable"))
  end.

(** [v[key]] for a [str] key *)
Definition getitem (v : json) (key : string) : result json :=
  match v with
  | JObj fields =>
      match fields !! key with
      | Some x => Ok x
      | None => Err (Raised KeyError ("'" +:+ key +:+ "'"))
      end
  | JArr _ =>
      Err (Raised TypeError "list indices must be integers or slices, not str")
  | JStr _ => Err (Raised TypeError "string indices must be integers, not 'str'")
  | _ => Err (Raised TypeError
                ("'" +:+ type_name v +:+ "' object is not subscriptable"))
  end.

(** The items [for item in v[:n]] goes through. *)
Definition slice_items (v : json) (n : Z) : result (list json) :=
  match v with
  | JArr items => Ok (list_slice_to n items)
  | JStr s => Ok (list_slice_to n (JStr <$> code_points s))
  | JObj _ => Err (Raised TypeError "unhashable type: 'slice'")
  | _ => Err (Raised TypeError
                ("'" +:+ type_name v +:+ "' object is not subscriptable"))
  end.

(** The items [for a in v] goes through; a dict gives its keys. *)
Definition iterate (v : json) : result (list json) :=
  match v with
  | JArr items => Ok items
  | JStr s => Ok (JStr <$> code_points s)
  | JObj fields => Ok (JStr <$> (map_to_list fields).*1)
  | _ => Err (Raised TypeError
                ("'" +:+ type_name v +:+ "' object is not iterable"))
  end.

(** [sep.join(items)]: every item has to be a [str]. *)
Fixpoint str_items (i : Z) (items : list json) : result (list string) :=
  match items with
  | [] => Ok []
  | JStr s :: items' => rest ← str_items (i + 1) items'; Ok (s :: rest)
  | v :: _ =>
      Err (Raised TypeError
             ("sequence item " +:+ str_of_Z i +:+ ": expected str instance, "
              +:+ type_name v +:+ " found"))
  end.

Definition join_values (sep : string) (items : list json) : result string :=
  pieces ← str_items 0 items; Ok (join sep pieces).

(** [v.upper()] *)
Definition upper_value (v : json) : result string :=
  match v with
  | JStr s => Ok (upper s)
  | _ => Err (no_attribute v "upper")
  end.

(** ** Source adapters ([paper_sources.py]) *)

(** [ArxivLoader(query=..., load_max_docs=..., sort_by="submittedDate",
    sort_order="descending").load()] *)
Definition ArxivLoader_load (w : world) (query : string) (load_max_docs : Z)
    : M (list Document) :=
  emit (ArxivLoad query load_max_docs);;
  lift (arxiv_answer w query load_max_docs).

(** The body of [for doc in docs] in [search_arxiv]. When the key is absent
    [.get("Entry ID")] is [None], which is falsy, and [.get("Entry ID", "")]
    is [""]; when it is present both branches store the value it has. *)
Definition stamp_arxiv (doc : Document) : Document :=
  let md := <["source_name" := JStr "ArXiv"]>
              (<["source" := JStr "arxiv"]> (metadata doc)) in
  let url :=
    match md !! "Entry ID" with
    | None => JStr ""
    | Some v => if negb (truthy v) then v else v
    end in
  {| page_content := page_content doc; metadata := <["url" := url]> md |}.

Definition search_arxiv_try (w : world) (query : string) (max_results : Z)
    : M (list Document) :=
  import_ w "langchain_community.document_loaders";;
  docs ← ArxivLoader_load w query max_results;
  mret (stamp_arxiv <$> docs).

Definition search_arxiv (w : world) (query : string) (max_results : Z)
    : M (list Document) :=
  try_except (search_arxiv_try w query max_results) any_Exception
    (λ e, print ("⚠️  Erro ao buscar ArXiv: " +:+ str e);; mret []).

(** [requests.get(url, params=params, headers=headers, timeout=timeout)] *)
Definition requests_get (w : world) (url : string) (params : http_params)
    (headers : list (string * string)) (timeout : Z) : M response :=
  emit (HttpGet url params headers timeout);;
  lift (http_answer w url params headers timeout).

(** The body of [for item in data["data"][:max_results]]. *)
Definition s2_document (w : world) (item : json) : result Document :=
  title ← dict_get item "title" (JStr "");
  authors_value ← dict_get item "authors" (JArr []);
  authors_items ← iterate authors_value;
  names ← result_map (λ a, dict_get a "name" (JStr "")) authors_items;
  authors ← join_values ", " names;
  year ← dict_get item "year" (JStr "");
  abstract ← dict_get item "abstract" (JStr "");
  paper_id ← dict_get item "paperId" (JStr "");
  url ← dict_get item "url"
          (JStr (if truthy paper_id
                 then "https://www.semanticscholar.org/paper/" +:+ py_str w paper_id
                 else ""));
  let content :=
    "TÍTULO: " +:+ py_str w title +:+ nl +:+
    "AUTORES: " +:+ authors +:+ nl +:+
    "ANO: " +:+ py_str w year +:+ nl +:+ nl +:+
    "RESUMO: " +:+ py_str w abstract in
  Ok {| page_content := content;
        metadata := list_to_map
          [("Title", title);
           ("Authors", JStr authors);
           ("Published", JStr (if truthy year then py_str w year else ""));
           ("source", JStr "semantic_scholar");
           ("source_name", JStr "Semantic Scholar");
           ("url", url);
           ("paperId", paper_id)] |}.

(** The locals [url], [params] and [headers] of [search_semantic_scholar]. *)
Definition s2_url : string :=
  "https://api.semanticscholar.org/graph/v1/paper/search".

Definition s2_params (query : string) (max_results : Z) : http_params :=
  {| param_query := query;
     param_limit := Z.min max_results 100;   (* the API caps at 100 *)
     param_fields := "title,authors,year,abstract,url,paperId" |}.

Definition s2_headers (w : world) : list (string * string) :=
  let api_key := from_option id "" (getenv w "SEMANTIC_SCHOLAR_API_KEY") in
  if negb (String.eqb api_key "") then [("x-api-key", api_key)] else [].

Definition search_semantic_scholar_try (w : world) (query : string)
    (max_results : Z) : M (list Document) :=
  import_ w "requests";;
  response ← requests_get w s2_url (s2_params query max_results) (s2_headers w) 10;
  if negb (status_code response =? 200) then mret []
  else
    data ← lift (json_body response);
    has_data ← lift (py_in "data" data);
    if has_data : bool then
      listed ← lift (getitem data "data");
      items ← lift (slice_items listed max_results);
      for_each (λ item, lift (s2_document w item)) items
    else mret [].

Definition search_semantic_scholar (w : world) (query : string)
    (max_results : Z) : M (list Document) :=
  try_except (search_semantic_scholar_try w query max_results) any_Exception
    (λ e, print ("⚠️  Erro ao buscar Semantic Scholar: " +:+ str e);; mret []).

(** ** Source aggregator *)

Inductive adapter := Arxiv | SemanticScholar.

(** The dict [source_functions]. *)
Definition source_functions (name : string) : option adapter :=
  if String.eqb name "arxiv" then Some Arxiv
  else if String.eqb name "semantic_scholar" then Some SemanticScholar
  else None.

(** [f.__name__] *)
Definition function_name (f : adapter) : string :=
  match f with
  | Arxiv => "search_arxiv"
  | SemanticScholar => "search_semantic_scholar"
  end.

Definition call_adapter (w : world) (f : adapter) : string → Z → M (list Document) :=
  match f with
  | Arxiv => search_arxiv w
  | SemanticScholar => search_semantic_scholar w
  end.

(** The body of [for source in sources] in [search_all_sources]: the
    documents it appends to [all_docs]. *)
Definition search_one_source (w : world) (query : string) (max_per_source : Z)
    (source : string) : M (list Document) :=
  match source_functions (lower source) with
  | Some f =>
      print ("🔍 Buscando em "
             +:+ upper (replace "search_" "" (function_name f)) +:+ "...");;
      docs ← call_adapter w f query max_per_source;
      print ("   ✅ Encontrados " +:+ str_of_Z (Z.of_nat (length docs))
             +:+ " papers");;
      mret docs
  | None =>
      print ("⚠️  Fonte desconhecida: " +:+ source
             +:+ " (suportado: arxiv, semantic_scholar)");;
      mret []
  end.

Definition search_all_sources (w : world) (query : string)
    (sources : list string) (max_per_source : Z) : M (list Document) :=
  per_source ← for_each (search_one_source w query max_per_source) sources;
  mret (concat per_source).

(** ** Document enricher *)

Definition enrich_document (w : world) (doc : Document) : result Document :=
  let source := from_option id (JStr "unknown") (metadata doc !! "source") in
  source_upper ← upper_value source;
  let source_name :=
    from_option id (JStr source_upper) (metadata doc !! "source_name") in
  let title := from_option id (JStr "") (metadata doc !! "Title") in
  let date := from_option id (JStr "") (metadata doc !! "Published") in
  let url := from_option id (JStr "") (metadata doc !! "url") in
  Ok {| page_content :=
          "FONTE: " +:+ py_str w source_name +:+ nl +:+
          "TÍTULO: " +:+ py_str w title +:+ nl +:+
          "DATA: " +:+ py_str w date +:+ nl +:+
          "LINK: " +:+ py_str w url +:+ nl +:+
          "RESUMO: " +:+ page_content doc;
        metadata := metadata doc |}.

Definition enrich_documents (w : world) (docs : list Document)
    : M (list Document) :=
  lift (result_map (enrich_document w) docs).

(** ** Fragment splitter *)

Record TextSplitter := mkSplitter {
  chunk_size : nat;
  chunk_overlap : nat;
}.

(** Modelled from the spec: the constructor of [RecursiveCharacterTextSplitter]
    of [langchain_text_splitters], whose source is not part of the
    repository. Section 4.4: "overlap must be strictly smaller than
    chunk_size". *)
Definition RecursiveCharacterTextSplitter (chunk_size chunk_overlap : nat)
    : result TextSplitter :=
  if (chunk_overlap <? chunk_size)%nat
  then Ok {| chunk_size := chunk_size; chunk_overlap := chunk_overlap |}
  else Err (Raised ValueError "chunk_overlap must be smaller than chunk_size").

(** Modelled from the spec: the windows of [size] characters over the
    characters [text], each starting [step] characters after the one before,
    up to the one that reaches the end of the text. [fuel] bounds the number
    of windows. *)
Fixpoint windows (fuel size step : nat) (text : list string)
    : list (list string) :=
  match fuel with
  | O => []
  | S fuel' =>
      if (length text <=? size)%nat then [text]
      else take size text :: windows fuel' size step (drop step text)
  end.

(** Modelled from the spec: [split_text] of the splitter, missing like its
    constructor. Section 4.4: "Splits each document's content into overlapping
    windows of chunk_size characters with overlap characters shared between
    consecutive windows". An empty text has no window. *)
Definition split_text (ts : TextSplitter) (text : string) : list string :=
  if String.eqb text "" then []
  else join_points
         <$> windows (char_length text) (chunk_size ts)
               (chunk_size ts - chunk_overlap ts) (code_points text).

(** Modelled from the spec: [split_documents] of the splitter. Section 4.4:
    "Preserves parent metadata on every fragment", fragments in the order of
    the text, documents in the order given. *)
Definition split_documents (ts : TextSplitter) (docs : list Document)
    : list Document :=
  concat ((λ doc, (λ text, {| page_content := text; metadata := metadata doc |})
                    <$> split_text ts (page_content doc)) <$> docs).

(** ** Embedding client and vector index *)

(** Modelled from the spec: [embed_documents] of the embedding model, which is
    a remote provider. Section 3: one vector per fragment. The request either
    fails as the world says for this attempt, or embeds every text. *)
Definition embed_documents (w : world) (embeddings : Embeddings) (attempt : Z)
    (texts : list string) : M (list EmbeddingVector) :=
  emit (EmbedDocuments embeddings texts);;
  match embed_fault w embeddings attempt texts with
  | Some e => raise e
  | None => mret (embed_text w embeddings <$> texts)
  end.

(** Modelled from the spec: [FAISS.from_documents(docs, embeddings)], missing
    like [FAISS]: embeds the fragments and builds the index of them. *)
Definition FAISS_from_documents (w : world) (attempt : Z) (docs : list Document)
    (embeddings : Embeddings) : M FAISS :=
  vectors ← embed_documents w embeddings attempt (page_content <$> docs);
  mret {| embedding_function := embeddings; index := zip vectors docs |}.

(** Modelled from the spec: [db.add_documents(docs)], missing like [FAISS]:
    embeds the fragments and appends them; [db] is the object the global
    [vector_db] refers to, which is updated in place. *)
Definition FAISS_add_documents (w : world) (attempt : Z) (db : FAISS)
    (docs : list Document) : M unit :=
  vectors ← embed_documents w (embedding_function db) attempt
              (page_content <$> docs);
  set_vector_db {| embedding_function := embedding_function db;
                   index := index db ++ zip vectors docs |}.

(** [db.similarity_search(question, k=k)]: the ranking is the world's. *)
Definition similarity_search (w : world) (db : FAISS) (question : string)
    (k : Z) : M (list Document) :=
  emit (SimilaritySearch question k);;
  lift (search_answer w db question k).

(** The constructor of an embedding model. *)
Definition construct (w : world) (embeddings : Embeddings) : M Embeddings :=
  match new_embeddings w embeddings with
  | Some e => raise e
  | None => mret embeddings
  end.

Definition get_embeddings (w : world) : M Embeddings :=
  let provider := lower (from_option id "local" (getenv w "EMBEDDING_PROVIDER")) in
  if String.eqb provider "openai" then
    import_ w "langchain_openai";;
    construct w (OpenAIEmbeddings "text-embedding-3-small")
  else if String.eqb provider "gemini" then
    try_except
      (import_ w "langchain_google_genai";;
       let api_key := from_option id "" (getenv w "GOOGLE_API_KEY") in
       if String.eqb api_key "" then
         raise (Raised ValueError "GOOGLE_API_KEY not found in .env")
       else construct w (GoogleGenerativeAIEmbeddings "models/embedding-001" api_key))
      an_ImportError
      (λ _, raise (Raised ImportError
                     ("langchain-google-genai not installed. "
                      +:+ "Install with: pip install langchain-google-genai")))
  else if String.eqb provider "local" then
    let model_name :=
      from_option id "nomic-embed-text" (getenv w "LOCAL_EMBEDDING_MODEL") in
    let base_url :=
      from_option id "http://localhost:11434" (getenv w "OLLAMA_BASE_URL") in
    try_except2
      (import_ w "langchain_community.embeddings";;
       construct w (OllamaEmbeddings model_name base_url))
      an_ImportError
      (λ _, raise (Raised ImportError
                     ("langchain-community not installed. "
                      +:+ "Install with: pip install langchain-community")))
      any_Exception
      (λ e,
         let error_msg := lower (str e) in
         if contains "connection" error_msg || contains "refused" error_msg
            || contains "unreachable" error_msg
         then raise (Raised ConnectionError
                       ("Ollama is not running at " +:+ base_url +:+ ". "
                        +:+ "Start Ollama with: ollama serve" +:+ nl
                        +:+ "Ou instale: https://ollama.ai"))
         else if contains "model" error_msg && contains "not found" error_msg
         then raise (Raised ValueError
                       ("Embedding model '" +:+ model_name
                        +:+ "' not found in Ollama. "
                        +:+ "Download with: ollama pull " +:+ model_name))
         else raise e)
  else
    raise (Raised ValueError
             ("EMBEDDING_PROVIDER '" +:+ provider +:+ "' not supported. "
              +:+ "Use: 'openai', 'gemini', or 'local'")).

(** ** The retrieval service ([mcp_server.py]) *)

Definition max_retries : Z := 3.
Definition retry_delay : Z := 2.

Definition attempt_label (attempt : Z) : string :=
  "(attempt " +:+ str_of_Z (attempt + 1) +:+ "/" +:+ str_of_Z max_retries +:+ ")".

(** The block [if provider == "openai":] of the handler. [Some c] when
    control left the handler there ([continue] or [return]), [None] when it
    goes on to the generic treatment. *)
Definition openai_treatment (w : world) (provider : string) (attempt : Z)
    (e : exn) (error_str : string) : M (option ctl) :=
  if String.eqb provider "openai" then
    try_except
      (import_ w "openai";;
       if isinstance e RateLimitError then
         if attempt <? max_retries - 1 then
           let wait_time := retry_delay * 2 ^ attempt in
           print ("⚠️  [SERVER] Rate limit reached. Waiting "
                  +:+ str_of_Z wait_time +:+ "s... " +:+ attempt_label attempt);;
           sleep wait_time;;
           mret (Some Continue)
         else
           mret (Some (Return
             ("Error: OpenAI quota exceeded. Check: "
              +:+ "https://platform.openai.com/account/billing"
              +:+ " or use EMBEDDING_PROVIDER=gemini/local")))
       else if isinstance e APIError && contains "insufficient_quota" error_str then
         mret (Some (Return
           "Error: Insufficient quota. Add credits or use EMBEDDING_PROVIDER=gemini/local"))
       else mret None)
      an_ImportError
      (λ _, mret None)
  else mret None.

(** The rest of the handler: [Normal] when it falls off its end, and the
    loop goes to the next attempt. *)
Definition generic_treatment (provider : string) (attempt : Z) (e : exn)
    (error_str : string) : M ctl :=
  if contains "rate limit" error_str || contains "429" error_str
     || contains "quota" error_str
  then
    if attempt <? max_retries - 1 then
      let wait_time := retry_delay * 2 ^ attempt in
      print ("⚠️  [SERVER] Rate limit reached. Waiting "
             +:+ str_of_Z wait_time +:+ "s... " +:+ attempt_label attempt);;
      sleep wait_time;;
      mret Normal
    else
      mret (Return ("Error: Rate limit or quota exceeded for " +:+ provider
                    +:+ ". Details: " +:+ str e))
  else
    if attempt <? max_retries - 1 then
      print ("⚠️  [SERVER] Error: " +:+ str e +:+ ". Trying again... "
             +:+ attempt_label attempt);;
      sleep (retry_delay * 2 ^ attempt);;
      mret Normal
    else
      mret (Return ("Error creating embeddings: " +:+ str e)).

(** [except Exception as e:] inside the loop. *)
Definition on_embedding_error (w : world) (provider : string) (attempt : Z)
    (e : exn) : M ctl :=
  let error_str := lower (str e) in
  left ← openai_treatment w provider attempt e error_str;
  match left with
  | Some c => mret c
  | None => generic_treatment provider attempt e error_str
  end.

(** The [try] block inside the loop: create or update the FAISS database. *)
Definition create_or_update (w : world) (attempt : Z) (embeddings : Embeddings)
    (docs_split : list Document) : M ctl :=
  db ← get_vector_db;
  match db with
  | None =>
      new_db ← FAISS_from_documents w attempt docs_split embeddings;
      set_vector_db new_db
  | Some db => FAISS_add_documents w attempt db docs_split
  end;;
  mret Break.

(** The body of the loop: [try: ... except Exception as e: ...]. *)
Definition attempt_body (w : world) (provider : string) (embeddings : Embeddings)
    (docs_split : list Document) (attempt : Z) : M ctl :=
  try_except (create_or_update w attempt embeddings docs_split)
    any_Exception (on_embedding_error w provider attempt).

(** [for attempt in range(max_retries): ...] *)
Definition vectorize (w : world) (provider : string) (embeddings : Embeddings)
    (docs_split : list Document) : M (option string) :=
  for_loop (attempt_body w provider embeddings docs_split) (range max_retries).

(** The outer [try] block of [update_knowledge_base]. *)
Definition update_knowledge_base_try (w : world) (tema : string)
    (max_papers : Z) (sources : string) : M string :=
  let source_list := (λ s, lower (strip s)) <$> split "," sources in
  quotient ← lift (floordiv max_papers (Z.of_nat (length source_list)));
  let max_per_source := Z.max 1 quotient in
  print ("🔍 [SERVER] Searching in: " +:+ join ", " (upper <$> source_list));;
  print ("📊 [SERVER] Maximum per source: " +:+ str_of_Z max_per_source);;
  raw_docs ← search_all_sources w tema source_list max_per_source;
  match raw_docs with
  | [] => mret ("No papers found in the sources " +:+ sources +:+ " for this theme.")
  | _ :: _ =>
      raw_docs ← enrich_documents w raw_docs;
      print ("📚 [SERVER] Total papers found: "
             +:+ str_of_Z (Z.of_nat (length raw_docs)));;
      text_splitter ← lift (RecursiveCharacterTextSplitter 1000 100);
      let docs_split := split_documents text_splitter raw_docs in
      let provider :=
        lower (from_option id "openai" (getenv w "EMBEDDING_PROVIDER")) in
      print ("🧠 [SERVER] Using embeddings: " +:+ upper provider);;
      embeddings ← get_embeddings w;
      print ("🧠 [SERVER] Vectorizing "
             +:+ str_of_Z (Z.of_nat (length docs_split)) +:+ " fragments...");;
      returned ← vectorize w provider embeddings docs_split;
      match returned with
      | Some message => mret message
      | None =>
          mret ("Success! " +:+ str_of_Z (Z.of_nat (length raw_docs))
                +:+ " papers were indexed in the RAG.")
      end
  end.

Definition update_knowledge_base (w : world) (tema : string) (max_papers : Z)
    (sources : string) : M string :=
  print ("📥 [SERVER] Downloading papers about: " +:+ tema +:+ "...");;
  try_except (update_knowledge_base_try w tema max_papers sources)
    any_Exception
    (λ e, mret ("Error processing papers: " +:+ str e)).

Definition empty_sentinel : string :=
  "The knowledge base is empty. Use 'update_knowledge_base' first.".

Definition query_rag (w : world) (question : string) : M string :=
  db ← get_vector_db;
  match db with
  | None => mret empty_sentinel
  | Some db =>
      try_except
        (print ("🔍 [SERVER] Searching for similarity for: '" +:+ question +:+ "'");;
         results ← similarity_search w db question 5;
         mret (foldl (λ contexto doc,
                        contexto +:+ nl +:+ "---" +:+ nl +:+ page_content doc +:+ nl)
                 "" results))
        any_Exception
        (λ e, mret ("Error querying RAG: " +:+ str e))
  end.

(** ** The same code on an output stream that may refuse a line

    The definitions above take [print] on a stream that takes every line.
    These are the same functions, statement for statement, with every
    [print] on the stream [stdout]: a [print] that the stream refuses
    raises where it stands, and is caught or not by the [try] blocks around
    it as any other exception. The functions that print nothing
    ([search_arxiv_try], [search_semantic_scholar_try], [enrich_documents],
    [get_embeddings], [create_or_update]) are the ones above. *)

Section OutputStream.

Variable stdout : string → option exn.

Definition search_arxiv_on (w : world) (query : string) (max_results : Z)
    : M (list Document) :=
  try_except (search_arxiv_try w query max_results) any_Exception
    (λ e, print_on stdout ("⚠️  Erro ao buscar ArXiv: " +:+ str e);;
          mret []).

Definition search_semantic_scholar_on (w : world) (query : string)
    (max_results : Z) : M (list Document) :=
  try_except (search_semantic_scholar_try w query max_results) any_Exception
    (λ e, print_on stdout ("⚠️  Erro ao buscar Semantic Scholar: " +:+ str e);;
          mret []).

Definition call_adapter_on (w : world) (f : adapter) : string → Z → M (list Document) :=
  match f with
  | Arxiv => search_arxiv_on w
  | SemanticScholar => search_semantic_scholar_on w
  end.

Definition search_one_source_on (w : world) (query : string) (max_per_source : Z)
    (source : string) : M (list Document) :=
  match source_functions (lower source) with
  | Some f =>
      print_on stdout ("🔍 Buscando em "
             +:+ upper (replace "search_" "" (function_name f)) +:+ "...");;
      docs ← call_adapter_on w f query max_per_source;
      print_on stdout ("   ✅ Encontrados " +:+ str_of_Z (Z.of_nat (length docs))
             +:+ " papers");;
      mret docs
  | None =>
      print_on stdout ("⚠️  Fonte desconhecida: " +:+ source
             +:+ " (suportado: arxiv, semantic_scholar)");;
      mret []
  end.

Definition search_all_sources_on (w : world) (query : string)
    (sources : list string) (max_per_source : Z) : M (list Document) :=
  per_source ← for_each (search_one_source_on w query max_per_source) sources;
  mret (concat per_source).

Definition openai_treatment_on (w : world) (provider : string) (attempt : Z)
    (e : exn) (error_str : string) : M (option ctl) :=
  if String.eqb provider "openai" then
    try_except
      (import_ w "openai";;
       if isinstance e RateLimitError then
         if attempt <? max_retries - 1 then
           let wait_time := retry_delay * 2 ^ attempt in
           print_on stdout ("⚠️  [SERVER] Rate limit reached. Waiting "
                  +:+ str_of_Z wait_time +:+ "s... " +:+ attempt_label attempt);;
           sleep wait_time;;
           mret (Some Continue)
         else
           mret (Some (Return
             ("Error: OpenAI quota exceeded. Check: "
              +:+ "https://platform.openai.com/account/billing"
              +:+ " or use EMBEDDING_PROVIDER=gemini/local")))
       else if isinstance e APIError && contains "insufficient_quota" error_str then
         mret (Some (Return
           "Error: Insufficient quota. Add credits or use EMBEDDING_PROVIDER=gemini/local"))
       else mret None)
      an_ImportError
      (λ _, mret None)
  else mret None.

Definition generic_treatment_on (provider : string) (attempt : Z) (e : exn)
    (error_str : string) : M ctl :=
  if contains "rate limit" error_str || contains "429" error_str
     || contains "quota" error_str
  then
    if attempt <? max_retries - 1 then
      let wait_time := retry_delay * 2 ^ attempt in
      print_on stdout ("⚠️  [SERVER] Rate limit reached. Waiting "
             +:+ str_of_Z wait_time +:+ "s... " +:+ attempt_label attempt);;
      sleep wait_time;;
      mret Normal
    else
      mret (Return ("Error: Rate limit or quota exceeded for " +:+ provider
                    +:+ ". Details: " +:+ str e))
  else
    if attempt <? max_retries - 1 then
      print_on stdout ("⚠️  [SERVER] Error: " +:+ str e +:+ ". Trying again... "
             +:+ attempt_label attempt);;
      sleep (retry_delay * 2 ^ attempt);;
      mret Normal
    else
      mret (Return ("Error creating embeddings: " +:+ str e)).

Definition on_embedding_error_on (w : world) (provider : string) (attempt : Z)
    (e : exn) : M ctl :=
  let error_str := lower (str e) in
  left ← openai_treatment_on w provider attempt e error_str;
  match left with
  | Some c => mret c
  | None => generic_treatment_on provider attempt e error_str
  end.

Definition attempt_body_on (w : world) (provider : string) (embeddings : Embeddings)
    (docs_split : list Document) (attempt : Z) : M ctl :=
  try_except (create_or_update w attempt embeddings docs_split)
    any_Exception (on_embedding_error_on w provider attempt).

Definition vectorize_on (w : world) (provider : string) (embeddings : Embeddings)
    (docs_split : list Document) : M (option string) :=
  for_loop (attempt_body_on w provider embeddings docs_split) (range max_retries).

Definition update_knowledge_base_try_on (w : world) (tema : string)
    (max_papers : Z) (sources : string) : M string :=
  let source_list := (λ s, lower (strip s)) <$> split "," sources in
  quotient ← lift (floordiv max_papers (Z.of_nat (length source_list)));
  let max_per_source := Z.max 1 quotient in
  print_on stdout
    ("🔍 [SERVER] Searching in: " +:+ join ", " (upper <$> source_list));;
  print_on stdout
    ("📊 [SERVER] Maximum per source: " +:+ str_of_Z max_per_source);;
  raw_docs ← search_all_sources_on w tema source_list max_per_source;
  match raw_docs with
  | [] => mret ("No papers found in the sources " +:+ sources +:+ " for this theme.")
  | _ :: _ =>
      raw_docs ← enrich_documents w raw_docs;
      print_on stdout ("📚 [SERVER] Total papers found: "
             +:+ str_of_Z (Z.of_nat (length raw_docs)));;
      text_splitter ← lift (RecursiveCharacterTextSplitter 1000 100);
      let docs_split := split_documents text_splitter raw_docs in
      let provider :=
        lower (from_option id "openai" (getenv w "EMBEDDING_PROVIDER")) in
      print_on stdout ("🧠 [SERVER] Using embeddings: " +:+ upper provider);;
      embeddings ← get_embeddings w;
      print_on stdout ("🧠 [SERVER] Vectorizing "
             +:+ str_of_Z (Z.of_nat (length docs_split)) +:+ " fragments...");;
      returned ← vectorize_on w provider embeddings docs_split;
      match returned with
      | Some message => mret message
      | None =>
          mret ("Success! " +:+ str_of_Z (Z.of_nat (length raw_docs))
                +:+ " papers were indexed in the RAG.")
      end
  end.

Definition update_knowledge_base_on (w : world) (tema : string) (max_papers : Z)
    (sources : string) : M string :=
  (* line 101, before the [try] of line 103 *)
  print_on stdout ("📥 [SERVER] Downloading papers about: " +:+ tema +:+ "...");;
  try_except (update_knowledge_base_try_on w tema max_papers sources)
    any_Exception
    (λ e, mret ("Error processing papers: " +:+ str e)).

Definition query_rag_on (w : world) (question : string) : M string :=
  db ← get_vector_db;
  match db with
  | None => mret empty_sentinel
  | Some db =>
      try_except
        (print_on stdout
           ("🔍 [SERVER] Searching for similarity for: '" +:+ question +:+ "'");;
         results ← similarity_search w db question 5;
         mret (foldl (λ contexto doc,
                        contexto +:+ nl +:+ "---" +:+ nl +:+ page_content doc +:+ nl)
                 "" results))
        any_Exception
        (λ e, mret ("Error querying RAG: " +:+ str e))
  end.

End OutputStream.

(** ** Vocabulary of the properties *)

(** The state after the events [evs] were added to the trace. *)
Definition logged (st : state) (evs : list event) : state :=
  {| vector_db := vector_db st; trace := trace st ++ evs |}.

(** The effects other than printing. *)
Definition is_effect (ev : event) : bool :=
  match ev with
  | Print _ => false
  | _ => true
  end.

Definition effects (evs : list event) : list event := List.filter is_effect evs.

Definition is_print (ev : event) : bool := negb (is_effect ev).

(** The embedding model the index uses for new fragments: the one it was
    built with, or the one just configured when there is no index yet. *)
Definition embedder_of (st : state) (embeddings : Embeddings) : Embeddings :=
  match vector_db st with
  | None => embeddings
  | Some db => embedding_function db
  end.

(** The index once the fragments [docs] are ingested. *)
Definition ingested (w : world) (st : state) (embeddings : Embeddings)
    (docs : list Document) : FAISS :=
  let emb := embedder_of st embeddings in
  {| embedding_function := emb;
     index := from_option index [] (vector_db st)
              ++ zip (embed_text w emb <$> (page_content <$> docs)) docs |}.

(** How the handler of the embedding loop treats a failure: the branch of
    [on_embedding_error] it ends in. *)
Inductive failure_kind :=
| OpenAIRateLimit          (* [isinstance(e, RateLimitError)] *)
| OpenAIInsufficientQuota  (* an [APIError] whose text has "insufficient_quota" *)
| GenericRateLimit         (* "rate limit", "429" or "quota" in the text *)
| OtherFailure.            (* the final [else] *)

Definition classify (w : world) (provider : string) (e : exn) : failure_kind :=
  let error_str := lower (str e) in
  let generic :=
    if contains "rate limit" error_str || contains "429" error_str
       || contains "quota" error_str
    then GenericRateLimit else OtherFailure in
  if String.eqb provider "openai" && importable w "openai" then
    if isinstance e RateLimitError then OpenAIRateLimit
    else if isinstance e APIError && contains "insufficient_quota" error_str
    then OpenAIInsufficientQuota
    else generic
  else generic.

Definition rate_limited (w : world) (provider : string) (e : exn) : Prop :=
  classify w provider e = OpenAIRateLimit ∨ classify w provider e = GenericRateLimit.

(** The message returned when the last attempt fails with [e]. *)
Definition exhausted_message (w : world) (provider : string) (e : exn) : string :=
  match classify w provider e with
  | OpenAIRateLimit =>
      "Error: OpenAI quota exceeded. Check: "
      +:+ "https://platform.openai.com/account/billing"
      +:+ " or use EMBEDDING_PROVIDER=gemini/local"
  | OpenAIInsufficientQuota =>
      "Error: Insufficient quota. Add credits or use EMBEDDING_PROVIDER=gemini/local"
  | GenericRateLimit =>
      "Error: Rate limit or quota exceeded for " +:+ provider
      +:+ ". Details: " +:+ str e
  | OtherFailure => "Error creating embeddings: " +:+ str e
  end.

(** The number of entries of the index; an absent index has none. *)
Definition index_size (st : state) : nat :=
  match vector_db st with
  | None => 0
  | Some db => length (index db)
  end.

(** The index is absent or non-empty. *)
Definition absent_or_nonempty (st : state) : Prop :=
  match vector_db st with
  | None => True
  | Some db => index db ≠ []
  end.

(** A call of one of the two exposed operations, with the world it meets. *)
Inductive call :=
| Update (w : world) (tema : string) (max_papers : Z) (sources : string)
| Query (w : world) (question : string).

Definition perform (st : state) (c : call) : state :=
  match c with
  | Update w tema max_papers sources =>
      (update_knowledge_base w tema max_papers sources st).1
  | Query w question => (query_rag w question st).1
  end.

(** The state of the process after a sequence of calls. *)
Definition run (calls : list call) : state := foldl perform initial_state calls.

(** The source ids [update_knowledge_base] parses out of [sources]. *)
Definition source_ids (sources : string) : list string :=
  (λ s, lower (strip s)) <$> split "," sources.

Fixpoint commas (s : string) : nat :=
  match s with
  | EmptyString => 0
  | String c s' => (if Ascii.eqb c "," then 1 else 0) + commas s'
  end.

(** The per-source limit in the words of the spec:
    [max(1, max_total / count(source_ids))]. *)
Definition per_source_limit (max_total : Z) (sources : string) : Z :=
  Z.max 1 (max_total / Z.of_nat (S (commas sources))).

(** An adapter request carries the limit [limit]; the API-backed source is
    asked for at most 100. *)
Definition request_within (limit : Z) (ev : event) : Prop :=
  match ev with
  | ArxivLoad _ load_max_docs => load_max_docs = limit
  | HttpGet _ params _ _ => param_limit params = Z.min limit 100
  | _ => True
  end.

(** [frag] is a substring of [text]. *)
Definition substring_of (frag text : string) : Prop :=
  ∃ before after, text = before +:+ frag +:+ after.

Definition fragment (parent : Document) (text : string) : Document :=
  {| page_content := text; metadata := metadata parent |}.

Definition is_embedding (ev : event) : bool :=
  match ev with
  | EmbedDocuments _ _ => true
  | _ => false
  end.

(** The number of embedding requests among the events, and the sleeps. *)
Definition attempts (evs : list event) : nat :=
  length (List.filter is_embedding evs).

Definition sleeps (evs : list event) : list Z :=
  omap (λ ev, match ev with Sleep s => Some s | _ => None end) evs.

(** The effects of [k] failed attempts followed by one more attempt. *)
Definition backoff_schedule (emb : Embeddings) (texts : list string) (k : Z)
    : list event :=
  concat ((λ i, [EmbedDocuments emb texts; Sleep (retry_delay * 2 ^ i)]) <$> range k)
  ++ [EmbedDocuments emb texts].

(** Bytes that are all continuation bytes. *)
Definition all_continuation (s : string) : bool :=
  forallb is_continuation (list_ascii_of_string s).

(** One character: a byte and continuation bytes. *)
Definition is_point (g : string) : bool :=
  match g with
  | EmptyString => false
  | String _ t => all_continuation t
  end.

Definition starts_point (g : string) : bool :=
  match g with
  | EmptyString => false
  | String c _ => negb (is_continuation c)
  end.

(** Three windows over [text]: each is a substring of it, two neighbours
    share exactly the [overlap] characters at their boundary, and once the
    shared characters are dropped the windows make up the text. *)
Definition three_windows (overlap : nat) (text f0 f1 f2 : string) : Prop :=
  substring_of f0 text ∧ substring_of f1 text ∧ substring_of f2 text ∧
  chars_from (char_length f0 - overlap) f0 = chars_to overlap f1 ∧
  char_length (chars_to overlap f1) = overlap ∧
  chars_from (char_length f1 - overlap) f1 = chars_to overlap f2 ∧
  char_length (chars_to overlap f2) = overlap ∧
  text = f0 +:+ chars_from overlap f1 +:+ chars_from overlap f2.

(** A computation that leaves the index alone. *)
Definition keeps_db {A} (m : M A) : Prop :=
  ∀ st, vector_db (m st).1 = vector_db st.

(** A computation whose new events all satisfy [P]. *)
Definition emits {A} (P : event → Prop) (m : M A) : Prop :=
  ∀ st, ∃ evs, trace (m st).1 = trace st ++ evs ∧ Forall P evs.

(** A computation that never raises. *)
Definition never_raises {A} (m : M A) : Prop :=
  ∀ st, ∃ a, (m st).2 = Ok a.

(** ** Sample worlds *)

Definition paper : Document := {| page_content := "abc"; metadata := ∅ |}.

(** Everything is installed and answers: arXiv has one paper, Semantic
    Scholar has none, the embedding provider never fails. *)
Definition calm : world := {|
  getenv := λ _, None;
  importable := λ _, true;
  py_repr := λ _, "";
  arxiv_answer := λ _ _, Ok [paper];
  http_answer := λ _ _ _ _,
    Ok {| status_code := 200; json_body := Ok (JObj {["data" := JArr []]}) |};
  new_embeddings := λ _, None;
  embed_fault := λ _ _ _, None;
  embed_text := λ _ _, [];
  search_answer := λ _ _ _, Ok [];
|}.

(** [w], with the embedding request of each attempt failing as [fault] says. *)
Definition with_embed_fault (fault : Z → option exn) (w : world) : world := {|
  getenv := getenv w;
  importable := importable w;
  py_repr := py_repr w;
  arxiv_answer := arxiv_answer w;
  http_answer := http_answer w;
  new_embeddings := new_embeddings w;
  embed_fault := λ _ attempt _, fault attempt;
  embed_text := embed_text w;
  search_answer := search_answer w;
|}.

(** [w], with every HTTP request answered by [answer]. *)
Definition with_http (answer : result response) (w : world) : world := {|
  getenv := getenv w;
  importable := importable w;
  py_repr := py_repr w;
  arxiv_answer := arxiv_answer w;
  http_answer := λ _ _ _ _, answer;
  new_embeddings := new_embeddings w;
  embed_fault := embed_fault w;
  embed_text := embed_text w;
  search_answer := search_answer w;
|}.

(** [w], with every arXiv query answered by [answer]. *)
Definition with_arxiv (answer : result (list Document)) (w : world) : world := {|
  getenv := getenv w;
  importable := importable w;
  py_repr := py_repr w;
  arxiv_answer := λ _ _, answer;
  http_answer := http_answer w;
  new_embeddings := new_embeddings w;
  embed_fault := embed_fault w;
  embed_text := embed_text w;
  search_answer := search_answer w;
|}.

(** [w], with the environment variable [name] set to [value]. *)
Definition with_env (name value : string) (w : world) : world := {|
  getenv := λ n, if String.eqb n name then Some value else getenv w n;
  importable := importable w;
  py_repr := py_repr w;
  arxiv_answer := arxiv_answer w;
  http_answer := http_answer w;
  new_embeddings := new_embeddings w;
  embed_fault := embed_fault w;
  embed_text := embed_text w;
  search_answer := search_answer w;
|}.

(** The embedding provider rejects every request as malformed. *)
Definition malformed : world :=
  with_embed_fault (λ _, Some (Raised ValueError "malformed request")) calm.

(** The embedding provider answers every request with a rate-limit error. *)
Definition throttled : world :=
  with_embed_fault (λ _, Some (Raised RateLimitError "Rate limit reached")) calm.

(** The rate limit is lifted after the first attempt. *)
Definition throttled_once : world :=
  with_embed_fault
    (λ attempt, if attempt <? 1 then Some (Raised Exception "Error code: 429")
                else None)
    calm.

(** Semantic Scholar answers 429 Too Many Requests, arXiv is unreachable. *)
Definition sources_down : world :=
  with_arxiv (Err (Raised ConnectionError "Connection refused"))
    (with_http (Ok {| status_code := 429;
                      json_body := Ok (JObj {["message" := JStr "Too Many Requests"]}) |})
       calm).

(** [n] times the character [c]. *)
Fixpoint repeat_char (c : ascii) (n : nat) : string :=
  match n with
  | O => EmptyString
  | S n' => String c (repeat_char c n')
  end.

(** A document whose content has 2500 characters. *)
Definition long_paper : Document :=
  {| page_content := repeat_char "a" 2500; metadata := {["Title" := JStr "T"]} |}.

(** A theme that is one lone surrogate, U+D800: what the JSON string
    ["\ud800"] decodes to. *)
Definition lone_surrogate : string := point_of [237; 160; 128]%nat.

(** A document whose content has 2500 characters and whose title has 260. *)
Definition long_titled : Document :=
  {| page_content := repeat_char "a" 2500;
     metadata := {["Title" := JStr (repeat_char "T" 260)]} |}.

(** ** Vocabulary of the further properties *)

(** A computation that leaves the whole state alone: no assignment of the
    index, nothing printed, no request, no sleep. *)
Definition silent {A} (m : M A) : Prop := ∀ st, (m st).1 = st.

(** The provider name [get_embeddings] dispatches on. *)
Definition embedding_provider (w : world) : string :=
  lower (from_option id "local" (getenv w "EMBEDDING_PROVIDER")).

(** The model name and the address [get_embeddings] gives the local model. *)
Definition local_model (w : world) : string :=
  from_option id "nomic-embed-text" (getenv w "LOCAL_EMBEDDING_MODEL").

Definition ollama_url (w : world) : string :=
  from_option id "http://localhost:11434" (getenv w "OLLAMA_BASE_URL").

(** The errors [get_embeddings] raises itself. *)
Definition unsupported_provider (provider : string) : exn :=
  Raised ValueError
    ("EMBEDDING_PROVIDER '" +:+ provider +:+ "' not supported. "
     +:+ "Use: 'openai', 'gemini', or 'local'").

Definition gemini_not_installed : exn :=
  Raised ImportError
    ("langchain-google-genai not installed. "
     +:+ "Install with: pip install langchain-google-genai").

Definition community_not_installed : exn :=
  Raised ImportError
    ("langchain-community not installed. "
     +:+ "Install with: pip install langchain-community").

(** What [get_embeddings] raises when the constructor of the local model
    raises [e], which is not an [ImportError]. *)
Definition ollama_failure (w : world) (e : exn) : exn :=
  let error_msg := lower (str e) in
  if contains "connection" error_msg || contains "refused" error_msg
     || contains "unreachable" error_msg
  then Raised ConnectionError
         ("Ollama is not running at " +:+ ollama_url w +:+ ". "
          +:+ "Start Ollama with: ollama serve" +:+ nl
          +:+ "Ou instale: https://ollama.ai")
  else if contains "model" error_msg && contains "not found" error_msg
  then Raised ValueError
         ("Embedding model '" +:+ local_model w +:+ "' not found in Ollama. "
          +:+ "Download with: ollama pull " +:+ local_model w)
  else e.

(** What [search_arxiv] makes of a loaded document: the content and every
    other key are kept, and three keys are set. *)
Definition stamped_from (source source_name : string) (url : json)
    (doc loaded : Document) : Prop :=
  page_content doc = page_content loaded
  ∧ metadata doc !! "source" = Some (JStr source)
  ∧ metadata doc !! "source_name" = Some (JStr source_name)
  ∧ metadata doc !! "url" = Some url
  ∧ ∀ key, key ≠ "source" → key ≠ "source_name" → key ≠ "url" →
           metadata doc !! key = metadata loaded !! key.

(** A document of Semantic Scholar as the adapter builds it. *)
Definition semantic_scholar_document (doc : Document) : Prop :=
  metadata doc !! "source" = Some (JStr "semantic_scholar")
  ∧ metadata doc !! "source_name" = Some (JStr "Semantic Scholar")
  ∧ dom (metadata doc)
    = list_to_set ["Title"; "Authors"; "Published"; "source"; "source_name";
                   "url"; "paperId"]
  ∧ String.prefix "TÍTULO: " (page_content doc) = true.

(** The [source] entry of the metadata is absent or a [str]: what
    [enrich_documents] needs of a document. *)
Definition source_is_text (doc : Document) : Prop :=
  match metadata doc !! "source" with
  | Some (JStr _) | None => True
  | Some _ => False
  end.

(** The enriched form of [doc]: same metadata, and the content of [doc]
    after a header that starts with the source line. *)
Definition enriched_from (doc enriched : Document) : Prop :=
  metadata enriched = metadata doc
  ∧ ∃ header,
      page_content enriched = header +:+ "RESUMO: " +:+ page_content doc
      ∧ String.prefix "FONTE: " header = true.

(** The first line of an enriched document names one of the two sources. *)
Definition names_its_source (doc : Document) : Prop :=
  (∃ rest, page_content doc = "FONTE: ArXiv" +:+ nl +:+ rest)
  ∨ (∃ rest, page_content doc = "FONTE: Semantic Scholar" +:+ nl +:+ rest).

(** A document as one of the two adapters returns it. *)
Definition from_an_adapter (doc : Document) : Prop :=
  (metadata doc !! "source" = Some (JStr "arxiv")
   ∧ metadata doc !! "source_name" = Some (JStr "ArXiv"))
  ∨ (metadata doc !! "source" = Some (JStr "semantic_scholar")
     ∧ metadata doc !! "source_name" = Some (JStr "Semantic Scholar")).

(** ** Further sample worlds *)

(** [w], with the constructor of an embedding model failing as [fault] says. *)
Definition with_new_embeddings (fault : Embeddings → option exn) (w : world)
    : world := {|
  getenv := getenv w;
  importable := importable w;
  py_repr := py_repr w;
  arxiv_answer := arxiv_answer w;
  http_answer := http_answer w;
  new_embeddings := fault;
  embed_fault := embed_fault w;
  embed_text := embed_text w;
  search_answer := search_answer w;
|}.

(** Ollama is not running. *)
Definition ollama_down : world :=
  with_new_embeddings (λ _, Some (Raised Exception "Connection refused")) calm.

(** Semantic Scholar lists two papers, the second without a title. *)
Definition two_listed : world :=
  with_http
    (Ok {| status_code := 200;
           json_body :=
             Ok (JObj {["data" :=
                   JArr [JObj {["title" := JStr "Attention"]};
                         JObj {["paperId" := JStr "p2"]}]]}) |})
    calm.

(** A document whose "source" is a number. *)
Definition numbered_source : Document :=
  {| page_content := "abc"; metadata := {["source" := JNum 7]} |}.

(** ** Vocabulary of the ingestion outcomes *)

(** An event that is neither an embedding request nor a sleep: what a call
    does before it reaches the embedding loop. *)
Definition before_the_loop (ev : event) : Prop :=
  is_embedding ev = false ∧ sleeps [ev] = [].

(** A computation that neither reads nor changes the state. *)
Definition stateless {A} (m : M A) : Prop := ∃ r, ∀ st, m st = (st, r).

(** The provider name [update_knowledge_base] announces and hands to the
    handler of the embedding loop. *)
Definition announced_provider (w : world) : string :=
  lower (from_option id "openai" (getenv w "EMBEDDING_PROVIDER")).

(** The messages [update_knowledge_base] returns. *)
Definition success_message (papers : nat) : string :=
  "Success! " +:+ str_of_Z (Z.of_nat papers) +:+ " papers were indexed in the RAG.".

Definition nothing_found_message (sources : string) : string :=
  "No papers found in the sources " +:+ sources +:+ " for this theme.".

Definition processing_error (e : exn) : string :=
  "Error processing papers: " +:+ str e.

Definition insufficient_quota_message : string :=
  "Error: Insufficient quota. Add credits or use EMBEDDING_PROVIDER=gemini/local".

(** The fragments [update_knowledge_base] hands to the index. *)
Definition fragments_of (enriched : list Document) : list Document :=
  split_documents {| chunk_size := 1000; chunk_overlap := 100 |} enriched.

(** The request of [attempt] fails with [e], which is not classified as
    rate-limit or quota. *)
Definition non_transient (w : world) (fault : Z → option exn) (attempt : Z)
    (e : exn) : Prop :=
  fault attempt = Some e ∧ classify w (announced_provider w) e = OtherFailure.

(** The call has ingested the fragments of the papers it found, and reports
    their number. *)
Definition reports_ingestion (w : world) (st : state) (embeddings : Embeddings)
    (st' : state) (reply : result string) : Prop :=
  ∃ enriched,
    enriched ≠ []
    ∧ reply = Ok (success_message (length enriched))
    ∧ vector_db st' = Some (ingested w st embeddings (fragments_of enriched)).

(** The embedding requests and sleeps of one run of the embedding loop:
    one, two or three requests of the same texts, with the sleeps of 2 and
    4 seconds between them. *)
Definition within_budget (request : event) (evs : list event) : Prop :=
  effects evs = [request]
  ∨ effects evs = [request; Sleep 2; request]
  ∨ effects evs = [request; Sleep 2; request; Sleep 4; request].

(** The OpenAI account has no credit left. *)
Definition out_of_credit : world :=
  with_embed_fault
    (λ _, Some (Raised APIError "Error code: 429 - insufficient_quota")) calm.




(** Semantic Scholar lists a paper and, after it, something that is not an
    object. *)
Definition one_malformed : world :=
  with_http
    (Ok {| status_code := 200;
           json_body :=
             Ok (JObj {["data" :=
                   JArr [JObj {["title" := JStr "Attention"]}; JNum 7]]}) |})
    calm.

(** * Properties *)

(** ** Running the monad *)

Lemma run_bind {A B} (m : M A) (f : A → M B) st :
  (m ≫= f) st =
  match m st with
  | (st', Ok a) => f a st'
  | (st', Err e) => (st', Err e)
  end.
Proof. reflexivity. Qed.

Lemma run_emit ev st : emit ev st = (logged st [ev], Ok tt).
Proof. reflexivity. Qed.

Lemma logged_logged st evs evs' :
  logged (logged st evs) evs' = logged st (evs ++ evs').
Proof. unfold logged; simpl. by rewrite app_assoc. Qed.

Lemma keeps_db_ret {A} (a : A) : keeps_db (mret a).
Proof. by intros st. Qed.

Lemma keeps_db_raise {A} e : keeps_db (@raise A e).
Proof. by intros st. Qed.

Lemma keeps_db_lift {A} (r : result A) : keeps_db (lift r).
Proof. by intros st. Qed.

Lemma keeps_db_emit ev : keeps_db (emit ev).
Proof. by intros st. Qed.

Lemma keeps_db_bind {A B} (m : M A) (f : A → M B) :
  keeps_db m → (∀ a, keeps_db (f a)) → keeps_db (m ≫= f).
Proof.
  intros Hm Hf st. rewrite run_bind. specialize (Hm st).
  destruct (m st) as [st' [a|e]]; simpl in *; [|done].
  by rewrite Hf.
Qed.

Lemma keeps_db_try_except {A} (body : M A) catches handler :
  keeps_db body → (∀ e, keeps_db (handler e)) →
  keeps_db (try_except body catches handler).
Proof.
  intros Hm Hh st. unfold try_except. specialize (Hm st).
  destruct (body st) as [st' [a|e]]; simpl in *; [done|].
  destruct (catches e); [|done]. by rewrite Hh.
Qed.

Lemma keeps_db_for_each {A B} (body : A → M B) l :
  (∀ x, keeps_db (body x)) → keeps_db (for_each body l).
Proof.
  intros Hb. induction l as [|x l IH]; simpl; [apply keeps_db_ret|].
  apply keeps_db_bind; [done|]. intros y.
  apply keeps_db_bind; [done|]. intros ys. apply keeps_db_ret.
Qed.

Lemma emits_ret {A} P (a : A) : emits P (mret a).
Proof. intros st. exists []. by rewrite app_nil_r. Qed.

Lemma emits_raise {A} P e : emits P (@raise A e).
Proof. intros st. exists []. by rewrite app_nil_r. Qed.

Lemma emits_lift {A} P (r : result A) : emits P (lift r).
Proof. intros st. exists []. by rewrite app_nil_r. Qed.

Lemma emits_emit (P : event → Prop) ev : P ev → emits P (emit ev).
Proof. intros HP st. exists [ev]. split; [done|]. by constructor. Qed.

Lemma emits_bind {A B} P (m : M A) (f : A → M B) :
  emits P m → (∀ a, emits P (f a)) → emits P (m ≫= f).
Proof.
  intros Hm Hf st. rewrite run_bind. destruct (Hm st) as (evs & Ht & HP).
  destruct (m st) as [st' [a|e]]; simpl in *; [|by exists evs].
  destruct (Hf a st') as (evs' & Ht' & HP').
  exists (evs ++ evs'). rewrite Ht', Ht, app_assoc. split; [done|].
  by apply Forall_app.
Qed.

Lemma emits_try_except {A} P (body : M A) catches handler :
  emits P body → (∀ e, emits P (handler e)) →
  emits P (try_except body catches handler).
Proof.
  intros Hm Hh st. unfold try_except. destruct (Hm st) as (evs & Ht & HP).
  destruct (body st) as [st' [a|e]]; simpl in *; [by exists evs|].
  destruct (catches e); [|by exists evs].
  destruct (Hh e st') as (evs' & Ht' & HP').
  exists (evs ++ evs'). rewrite Ht', Ht, app_assoc. split; [done|].
  by apply Forall_app.
Qed.

Lemma emits_for_each {A B} P (body : A → M B) l :
  (∀ x, emits P (body x)) → emits P (for_each body l).
Proof.
  intros Hb. induction l as [|x l IH]; simpl; [apply emits_ret|].
  apply emits_bind; [done|]. intros y.
  apply emits_bind; [done|]. intros ys. apply emits_ret.
Qed.

Lemma never_raises_try_except {A} (body : M A) handler :
  (∀ e, never_raises (handler e)) →
  never_raises (try_except body any_Exception handler).
Proof.
  intros Hh st. unfold try_except.
  destruct (body st) as [st' [a|e]]; simpl; [by exists a|].
  apply Hh.
Qed.

Lemma keeps_db_import w module : keeps_db (import_ w module).
Proof. unfold import_. destruct (importable w module); by intros st. Qed.

Lemma emits_import P w module : emits P (import_ w module).
Proof.
  unfold import_. destruct (importable w module);
    [apply emits_ret | apply emits_raise].
Qed.

Lemma keeps_db_try_except2 {A} (body : M A) c1 h1 c2 h2 :
  keeps_db body → (∀ e, keeps_db (h1 e)) → (∀ e, keeps_db (h2 e)) →
  keeps_db (try_except2 body c1 h1 c2 h2).
Proof.
  intros Hm H1 H2 st. unfold try_except2. specialize (Hm st).
  destruct (body st) as [st' [a|e]]; simpl in *; [done|].
  destruct (c1 e); [by rewrite H1|]. destruct (c2 e); [by rewrite H2|done].
Qed.

Lemma keeps_db_get_vector_db : keeps_db get_vector_db.
Proof. by intros st. Qed.

(** One step of a proof that a computation leaves the index alone. *)
Ltac keeps_db_step :=
  lazymatch goal with
  | |- keeps_db (mret _) => apply keeps_db_ret
  | |- keeps_db (raise _) => apply keeps_db_raise
  | |- keeps_db (lift _) => apply keeps_db_lift
  | |- keeps_db get_vector_db => apply keeps_db_get_vector_db
  | |- keeps_db (emit _) => apply keeps_db_emit
  | |- keeps_db (print _) => apply keeps_db_emit
  | |- keeps_db (sleep _) => apply keeps_db_emit
  | |- keeps_db (import_ _ _) => apply keeps_db_import
  | |- keeps_db (_ ≫= _) => apply keeps_db_bind; [|intros ?]
  | |- keeps_db (try_except _ _ _) => apply keeps_db_try_except; [|intros ?]
  | |- keeps_db (try_except2 _ _ _ _ _) =>
      apply keeps_db_try_except2; [|intros ?|intros ?]
  | |- keeps_db (for_each _ _) => apply keeps_db_for_each; intros ?
  | |- keeps_db (if ?b then _ else _) => destruct b
  | |- keeps_db (match ?x with _ => _ end) => destruct x
  end.

Lemma emits_try_except2 {A} P (body : M A) c1 h1 c2 h2 :
  emits P body → (∀ e, emits P (h1 e)) → (∀ e, emits P (h2 e)) →
  emits P (try_except2 body c1 h1 c2 h2).
Proof.
  intros Hm H1 H2 st. unfold try_except2. destruct (Hm st) as (evs & Ht & HP).
  destruct (body st) as [st' [a|e]]; simpl in *; [by exists evs|].
  destruct (c1 e); [|destruct (c2 e); [|by exists evs]].
  - destruct (H1 e st') as (evs' & Ht' & HP').
    exists (evs ++ evs'). rewrite Ht', Ht, app_assoc. split; [done|].
    by apply Forall_app.
  - destruct (H2 e st') as (evs' & Ht' & HP').
    exists (evs ++ evs'). rewrite Ht', Ht, app_assoc. split; [done|].
    by apply Forall_app.
Qed.

Lemma emits_for_loop {A} P (body : A → M ctl) items :
  (∀ i, emits P (body i)) → emits P (for_loop body items).
Proof.
  intros Hb. induction items as [|i items IH]; simpl; [apply emits_ret|].
  apply emits_bind; [done|]. intros [| | |v]; try done; apply emits_ret.
Qed.

Lemma emits_get_vector_db P : emits P get_vector_db.
Proof. intros st. exists []. by rewrite app_nil_r. Qed.

Lemma emits_set_vector_db P db : emits P (set_vector_db db).
Proof. intros st. exists []. simpl. by rewrite app_nil_r. Qed.

(** One step of a proof that a computation only emits events satisfying a
    predicate which holds of every event the step meets. *)
Ltac emits_step :=
  lazymatch goal with
  | |- emits _ (mret _) => apply emits_ret
  | |- emits _ (raise _) => apply emits_raise
  | |- emits _ (lift _) => apply emits_lift
  | |- emits _ get_vector_db => apply emits_get_vector_db
  | |- emits _ (set_vector_db _) => apply emits_set_vector_db
  | |- emits _ (emit _) => apply emits_emit; done
  | |- emits _ (print _) => apply emits_emit; done
  | |- emits _ (sleep _) => apply emits_emit; done
  | |- emits _ (import_ _ _) => apply emits_import
  | |- emits _ (_ ≫= _) => apply emits_bind; [|intros ?]
  | |- emits _ (try_except _ _ _) => apply emits_try_except; [|intros ?]
  | |- emits _ (try_except2 _ _ _ _ _) =>
      apply emits_try_except2; [|intros ?|intros ?]
  | |- emits _ (for_each _ _) => apply emits_for_each; intros ?
  | |- emits _ (for_loop _ _) => apply emits_for_loop; intros ?
  | |- emits _ (if ?b then _ else _) => destruct b
  | |- emits _ (match ?x with _ => _ end) => destruct x
  end.

(** ** The source adapters *)

Lemma keeps_db_search_arxiv w query n : keeps_db (search_arxiv w query n).
Proof.
  unfold search_arxiv, search_arxiv_try, ArxivLoader_load.
  repeat keeps_db_step.
Qed.

Lemma keeps_db_search_semantic_scholar w query n :
  keeps_db (search_semantic_scholar w query n).
Proof.
  unfold search_semantic_scholar, search_semantic_scholar_try, requests_get.
  repeat keeps_db_step.
Qed.

Lemma keeps_db_call_adapter w f query n : keeps_db (call_adapter w f query n).
Proof.
  destruct f; [apply keeps_db_search_arxiv|apply keeps_db_search_semantic_scholar].
Qed.

Lemma keeps_db_search_one_source w query n source :
  keeps_db (search_one_source w query n source).
Proof.
  unfold search_one_source.
  repeat keeps_db_step; apply keeps_db_call_adapter.
Qed.

Lemma keeps_db_search_all_sources w query sources n :
  keeps_db (search_all_sources w query sources n).
Proof.
  apply keeps_db_bind; [|intros; apply keeps_db_ret].
  apply keeps_db_for_each. intros s. apply keeps_db_search_one_source.
Qed.

Lemma emits_print P line : P (Print line) → emits P (print line).
Proof. apply emits_emit. Qed.

Lemma emits_search_arxiv w query n :
  emits (request_within n) (search_arxiv w query n).
Proof.
  unfold search_arxiv, search_arxiv_try, ArxivLoader_load.
  repeat emits_step.
Qed.

Lemma emits_search_semantic_scholar w query n :
  emits (request_within n) (search_semantic_scholar w query n).
Proof.
  unfold search_semantic_scholar, search_semantic_scholar_try, requests_get.
  repeat emits_step.
Qed.

Lemma emits_search_all_sources w query sources n :
  emits (request_within n) (search_all_sources w query sources n).
Proof.
  apply emits_bind; [|intros; apply emits_ret].
  apply emits_for_each. intros s.
  unfold search_one_source. destruct (source_functions _) as [f|].
  - apply emits_bind; [by apply emits_print|]. intros _.
    apply emits_bind.
    { destruct f; [apply emits_search_arxiv|apply emits_search_semantic_scholar]. }
    intros docs. apply emits_bind; [by apply emits_print|]. intros _.
    apply emits_ret.
  - apply emits_bind; [by apply emits_print|]. intros _. apply emits_ret.
Qed.

(** The adapters never raise. *)
Lemma search_arxiv_total w query n : never_raises (search_arxiv w query n).
Proof.
  apply never_raises_try_except. intros e st. by exists [].
Qed.

Lemma search_semantic_scholar_total w query n :
  never_raises (search_semantic_scholar w query n).
Proof.
  apply never_raises_try_except. intros e st. by exists [].
Qed.

Lemma call_adapter_total w f query n : never_raises (call_adapter w f query n).
Proof.
  destruct f; [apply search_arxiv_total|apply search_semantic_scholar_total].
Qed.
(** C7 (as amended). Each source adapter never raises past its own boundary:
    for every query and limit it returns a sequence of documents; whenever
    its [try] block raises (a network error, a parsing error, a missing
    dependency) it logs the cause and returns the empty sequence; and on a
    response whose status is not 200, or whose JSON object has no "data"
    key, [search_semantic_scholar] returns the empty sequence without logging
    anything. *)
Theorem adapters_contain_failures w query max_results st :
  (∃ docs, (search_arxiv w query max_results st).2 = Ok docs) ∧
  (∃ docs, (search_semantic_scholar w query max_results st).2 = Ok docs) ∧
  (∀ st' e, search_arxiv_try w query max_results st = (st', Err e) →
     search_arxiv w query max_results st
     = (logged st' [Print ("⚠️  Erro ao buscar ArXiv: " +:+ str e)], Ok [])) ∧
  (∀ st' e, search_semantic_scholar_try w query max_results st = (st', Err e) →
     search_semantic_scholar w query max_results st
     = (logged st' [Print ("⚠️  Erro ao buscar Semantic Scholar: " +:+ str e)],
        Ok [])) ∧
  (∀ r,
     importable w "requests" = true →
     http_answer w s2_url (s2_params query max_results) (s2_headers w) 10 = Ok r →
     status_code r ≠ 200 →
     search_semantic_scholar w query max_results st
     = (logged st [HttpGet s2_url (s2_params query max_results) (s2_headers w) 10],
        Ok [])) ∧
  (∀ r fields,
     importable w "requests" = true →
     http_answer w s2_url (s2_params query max_results) (s2_headers w) 10 = Ok r →
     status_code r = 200 →
     json_body r = Ok (JObj fields) →
     fields !! "data" = None →
     search_semantic_scholar w query max_results st
     = (logged st [HttpGet s2_url (s2_params query max_results) (s2_headers w) 10],
        Ok [])).
Proof.
  split; [apply search_arxiv_total|].
  split; [apply search_semantic_scholar_total|].
  split; [|split; [|split]].
  - intros st' e Hraise. unfold search_arxiv, try_except. by rewrite Hraise.
  - intros st' e Hraise. unfold search_semantic_scholar, try_except.
    by rewrite Hraise.
  - intros r Himp Hans Hstatus.
    unfold search_semantic_scholar, try_except, search_semantic_scholar_try.
    rewrite run_bind. unfold import_ at 1. rewrite Himp. simpl.
    rewrite run_bind. unfold requests_get at 1. rewrite run_bind, run_emit.
    unfold lift at 1. rewrite Hans.
    apply Z.eqb_neq in Hstatus. by rewrite Hstatus.
  - intros r fields Himp Hans Hstatus Hjson Hdata.
    unfold search_semantic_scholar, try_except, search_semantic_scholar_try.
    rewrite run_bind. unfold import_ at 1. rewrite Himp. simpl.
    rewrite run_bind. unfold requests_get at 1. rewrite run_bind, run_emit.
    unfold lift at 1. rewrite Hans, Hstatus. simpl.
    rewrite run_bind. unfold lift at 1. rewrite Hjson.
    rewrite run_bind. unfold lift at 1, py_in. rewrite Hdata.
    by rewrite bool_decide_eq_false_2 by (by intros []).
Qed.

(** ** Parsing the sources *)

Lemma split_length s : length (split "," s) = S (commas s).
Proof.
  induction s as [|c s IH]; simpl; [done|].
  destruct (Ascii.eqb c ","); simpl; [by rewrite IH|].
  destruct (split "," s); simpl in *; lia.
Qed.

Lemma source_ids_length sources :
  length (source_ids sources) = S (commas sources).
Proof. unfold source_ids. rewrite length_fmap. apply split_length. Qed.




(** ** Nothing found *)





Lemma floordiv_source_ids max_papers sources :
  floordiv max_papers (Z.of_nat (length (source_ids sources)))
  = Ok (max_papers / Z.of_nat (length (source_ids sources))).
Proof.
  unfold floordiv. rewrite source_ids_length.
  by destruct (Z.eqb_spec (Z.of_nat (S (commas sources))) 0); [lia|].
Qed.




(** ** Traces of the embedding step *)

Lemma emits_get_embeddings w n : emits (request_within n) (get_embeddings w).
Proof. unfold get_embeddings, construct. repeat emits_step. Qed.

Lemma emits_vectorize w provider embeddings docs n :
  emits (request_within n) (vectorize w provider embeddings docs).
Proof.
  unfold vectorize, attempt_body, create_or_update, on_embedding_error,
    openai_treatment,
    generic_treatment, FAISS_from_documents, FAISS_add_documents,
    embed_documents.
  repeat emits_step.
Qed.

(** C6. For every [max_papers] and every comma-separated [sources] string,
    [update_knowledge_base] computes the per-source limit as
    [max(1, max_papers // n)] where [n] is the number of parsed source ids
    (one more than the number of commas): it prints that limit and every
    adapter request of the call carries it. With [max_papers = 15] and two
    sources the limit is 7. *)
Theorem per_source_limit_used w tema max_papers sources st :
  length (source_ids sources) = S (commas sources) ∧
  (∃ rest,
     trace (update_knowledge_base w tema max_papers sources st).1
     = trace st
       ++ [Print ("📥 [SERVER] Downloading papers about: " +:+ tema +:+ "...");
           Print ("🔍 [SERVER] Searching in: "
                  +:+ join ", " (upper <$> source_ids sources));
           Print ("📊 [SERVER] Maximum per source: "
                  +:+ str_of_Z (per_source_limit max_papers sources))]
       ++ rest
     ∧ Forall (request_within (per_source_limit max_papers sources)) rest) ∧
  per_source_limit 15 "a,b" = 7 ∧
  per_source_limit 15 "arxiv,semantic_scholar" = 7.
Proof.
  split; [apply source_ids_length|]. split; [|done].
  unfold update_knowledge_base. rewrite run_bind. unfold print at 1, emit at 1.
  unfold try_except, update_knowledge_base_try. fold (source_ids sources).
  rewrite run_bind. unfold lift at 1.
  rewrite floordiv_source_ids, source_ids_length.
  fold (per_source_limit max_papers sources).
  rewrite run_bind. unfold print at 1, emit at 1.
  rewrite run_bind. unfold print at 1, emit at 1. simpl trace. simpl vector_db.
  rewrite <- !app_assoc. simpl app.
  match goal with |- context [(?m ≫= ?k) ?s] =>
    assert (emits (request_within (per_source_limit max_papers sources)) (m ≫= k))
      as Hrest; [|destruct (Hrest s) as (rest & Htrace & Hall)]
  end.
  { emits_step; [apply emits_search_all_sources|].
    emits_step; [emits_step|].
    unfold enrich_documents.
    emits_step; [emits_step|]. emits_step; [emits_step|].
    emits_step; [emits_step|]. emits_step; [emits_step|].
    emits_step; [apply emits_get_embeddings|].
    emits_step; [emits_step|].
    emits_step; [apply emits_vectorize|].
    repeat emits_step. }
  exists rest. split; [|done].
  simpl in Htrace. rewrite <- app_assoc in Htrace. simpl in Htrace.
  rewrite <- Htrace.
  match goal with |- context [(?m ≫= ?k) ?s] =>
    by destruct ((m ≫= k) s) as [st1 [msg|e]] end.
Qed.

(** ** What reaches the caller of the two operations *)

(** On an output stream that takes every line, the two operations return a
    message, and whatever their [try] block raises comes back as the text of
    a message. *)
Lemma guarded_failures_return w st :
  (∀ tema max_papers sources,
     ∃ message, (update_knowledge_base w tema max_papers sources st).2 = Ok message) ∧
  (∀ question, ∃ message, (query_rag w question st).2 = Ok message) ∧
  (∀ tema max_papers sources st' e,
     update_knowledge_base_try w tema max_papers sources
       (logged st [Print ("📥 [SERVER] Downloading papers about: " +:+ tema +:+ "...")])
     = (st', Err e) →
     update_knowledge_base w tema max_papers sources st
     = (st', Ok ("Error processing papers: " +:+ str e))) ∧
  (∀ question db st' e,
     vector_db st = Some db →
     similarity_search w db question 5
       (logged st [Print ("🔍 [SERVER] Searching for similarity for: '"
                          +:+ question +:+ "'")])
     = (st', Err e) →
     query_rag w question st = (st', Ok ("Error querying RAG: " +:+ str e))).
Proof.
  repeat split.
  - intros tema max_papers sources.
    unfold update_knowledge_base. rewrite run_bind. unfold print at 1, emit at 1.
    apply never_raises_try_except. intros e st'. by eexists.
  - intros question. unfold query_rag. rewrite run_bind. unfold get_vector_db.
    destruct (vector_db st) as [db|]; [|by eexists].
    apply never_raises_try_except. intros e st'. by eexists.
  - intros tema max_papers sources st' e Hraise.
    unfold update_knowledge_base. rewrite run_bind. unfold print at 1, emit at 1.
    unfold try_except. unfold logged in Hraise. by rewrite Hraise.
  - intros question db st' e Hdb Hraise.
    unfold query_rag. rewrite run_bind. unfold get_vector_db. rewrite Hdb.
    unfold try_except. rewrite run_bind. unfold print at 1, emit at 1.
    rewrite run_bind. unfold logged in Hraise. by rewrite Hraise.
Qed.

(** C5. For every question, [query_rag] called while the index is absent
    returns the one fixed empty-knowledge-base sentinel, whatever the
    question, and does nothing else. *)
Theorem query_before_ingestion w question st :
  vector_db st = None →
  query_rag w question st
  = (st, Ok "The knowledge base is empty. Use 'update_knowledge_base' first.").
Proof.
  intros Hdb. unfold query_rag. rewrite run_bind. unfold get_vector_db.
  by rewrite Hdb.
Qed.

(** On the stream that takes every line the functions of the section
    [OutputStream] are the ones the other properties are about. *)
Lemma on_accepting_stream w :
  update_knowledge_base_on accepting w = update_knowledge_base w
  ∧ query_rag_on accepting w = query_rag w
  ∧ search_all_sources_on accepting w = search_all_sources w
  ∧ vectorize_on accepting w = vectorize w.
Proof. repeat split; reflexivity. Qed.

(** C2. The claim does not hold of [update_knowledge_base]: its first
    statement, the [print] of the theme, stands before the [try], so that
    what this [print] raises escapes to the caller, with nothing else done;
    on the default UTF-8 output that is a [UnicodeEncodeError] for a theme
    that holds a surrogate. Once the stream has taken that first line the
    call returns a message, whatever happens after, a refused line included;
    and [query_rag], whose one [print] is inside its [try], returns a message
    whatever the stream does. *)
Theorem opening_print_escapes stdout w tema max_papers sources st :
  (∀ e,
     stdout ("📥 [SERVER] Downloading papers about: " +:+ tema +:+ "...") = Some e →
     update_knowledge_base_on stdout w tema max_papers sources st = (st, Err e)) ∧
  (stdout ("📥 [SERVER] Downloading papers about: " +:+ tema +:+ "...") = None →
   ∃ message,
     (update_knowledge_base_on stdout w tema max_papers sources st).2
     = Ok message) ∧
  (∀ question, ∃ message, (query_rag_on stdout w question st).2 = Ok message).
Proof.
  split; [|split].
  - intros e Hrefused. unfold update_knowledge_base_on. rewrite run_bind.
    unfold print_on. by rewrite Hrefused.
  - intros Htaken. unfold update_knowledge_base_on. rewrite run_bind.
    unfold print_on at 1. rewrite Htaken. unfold print at 1, emit at 1.
    apply never_raises_try_except. intros e st'. by eexists.
  - intros question. unfold query_rag_on. rewrite run_bind. unfold get_vector_db.
    destruct (vector_db st) as [db|]; [|by eexists].
    apply never_raises_try_except. intros e st'. by eexists.
Qed.

(** ** The embedding loop *)

Lemma run_create_or_update_fault w attempt embeddings docs st e :
  embed_fault w (embedder_of st embeddings) attempt (page_content <$> docs) = Some e →
  create_or_update w attempt embeddings docs st
  = (logged st [EmbedDocuments (embedder_of st embeddings) (page_content <$> docs)],
     Err e).
Proof.
  intros Hfault. unfold create_or_update, embedder_of in *.
  rewrite run_bind. unfold get_vector_db.
  destruct (vector_db st) as [db|] eqn:Hdb;
    unfold FAISS_add_documents, FAISS_from_documents, embed_documents;
    rewrite !run_bind, run_emit; by rewrite Hfault.
Qed.

Lemma run_create_or_update_ok w attempt embeddings docs st :
  embed_fault w (embedder_of st embeddings) attempt (page_content <$> docs) = None →
  create_or_update w attempt embeddings docs st
  = ({| vector_db := Some (ingested w st embeddings docs);
        trace := trace st
                 ++ [EmbedDocuments (embedder_of st embeddings)
                       (page_content <$> docs)] |},
     Ok Break).
Proof.
  intros Hfault. unfold create_or_update, ingested, embedder_of in *.
  rewrite run_bind. unfold get_vector_db.
  destruct (vector_db st) as [db|] eqn:Hdb;
    unfold FAISS_add_documents, FAISS_from_documents, embed_documents;
    rewrite !run_bind, run_emit; by rewrite Hfault.
Qed.

(** Case analysis on the tests of the handler. *)
Ltac handler_cases tac :=
  repeat first
    [ tac
    | rewrite run_bind
    | progress simpl
    | match goal with
      | |- context [if ?b then _ else _] => destruct b eqn:?
      end ].

(** On the last attempt the handler returns the message of the failure. *)
Lemma handler_exhausted w provider attempt e st :
  (attempt <? max_retries - 1) = false →
  on_embedding_error w provider attempt e st
  = (st, Ok (Return (exhausted_message w provider e))).
Proof.
  intros Hlast.
  unfold on_embedding_error, openai_treatment, generic_treatment,
    exhausted_message, classify, try_except, import_.
  handler_cases ltac:(rewrite Hlast); done.
Qed.

(** Before the last attempt the handler prints, sleeps for the delay of the
    attempt and lets the loop go on, unless the failure is the insufficient
    quota of OpenAI. *)
Lemma handler_retries w provider attempt e st :
  (attempt <? max_retries - 1) = true →
  classify w provider e ≠ OpenAIInsufficientQuota →
  ∃ line c,
    on_embedding_error w provider attempt e st
    = (logged st [Print line; Sleep (retry_delay * 2 ^ attempt)], Ok c)
    ∧ (c = Normal ∨ c = Continue).
Proof.
  intros Hearly Hkind.
  unfold on_embedding_error, openai_treatment, generic_treatment,
    classify, try_except, import_, print, sleep, emit, logged in *.
  revert Hkind. handler_cases ltac:(rewrite Hearly); intros Hkind; try done;
    rewrite <- app_assoc; eexists _, _; (split; [reflexivity|]); auto.
Qed.

Lemma handler_insufficient_quota w provider attempt e st :
  classify w provider e = OpenAIInsufficientQuota →
  on_embedding_error w provider attempt e st
  = (st, Ok (Return (exhausted_message w provider e))).
Proof.
  intros Hkind. unfold exhausted_message. rewrite Hkind. revert Hkind.
  unfold on_embedding_error, openai_treatment, generic_treatment,
    classify, try_except, import_.
  handler_cases fail; done.
Qed.

(** A failed attempt before the last one: the loop sleeps and goes on. *)
Lemma loop_retries w provider embeddings docs st attempt rest e :
  (attempt <? max_retries - 1) = true →
  embed_fault w (embedder_of st embeddings) attempt (page_content <$> docs) = Some e →
  classify w provider e ≠ OpenAIInsufficientQuota →
  ∃ line,
    for_loop (attempt_body w provider embeddings docs) (attempt :: rest) st
    = for_loop (attempt_body w provider embeddings docs) rest
        (logged st [EmbedDocuments (embedder_of st embeddings) (page_content <$> docs);
                    Print line; Sleep (retry_delay * 2 ^ attempt)]).
Proof.
  intros Hearly Hfault Hkind. simpl. setoid_rewrite run_bind.
  unfold attempt_body at 1, try_except.
  rewrite (run_create_or_update_fault _ _ _ _ _ _ Hfault). simpl.
  destruct (handler_retries w provider attempt e
              (logged st [EmbedDocuments (embedder_of st embeddings)
                            (page_content <$> docs)]) Hearly Hkind)
    as (line & c & -> & Hc).
  exists line. rewrite logged_logged. by destruct Hc as [-> | ->].
Qed.

(** A failed last attempt: the function returns the message. *)
Lemma loop_exhausted w provider embeddings docs st attempt rest e :
  (attempt <? max_retries - 1) = false →
  embed_fault w (embedder_of st embeddings) attempt (page_content <$> docs) = Some e →
  for_loop (attempt_body w provider embeddings docs) (attempt :: rest) st
  = (logged st [EmbedDocuments (embedder_of st embeddings) (page_content <$> docs)],
     Ok (Some (exhausted_message w provider e))).
Proof.
  intros Hlast Hfault. simpl. rewrite run_bind.
  unfold attempt_body at 1, try_except.
  rewrite (run_create_or_update_fault _ _ _ _ _ _ Hfault). simpl.
  by rewrite handler_exhausted.
Qed.

(** A successful attempt: the index holds the fragments and the loop ends. *)
Lemma loop_succeeds w provider embeddings docs st attempt rest :
  embed_fault w (embedder_of st embeddings) attempt (page_content <$> docs) = None →
  for_loop (attempt_body w provider embeddings docs) (attempt :: rest) st
  = ({| vector_db := Some (ingested w st embeddings docs);
        trace := trace st
                 ++ [EmbedDocuments (embedder_of st embeddings)
                       (page_content <$> docs)] |},
     Ok None).
Proof.
  intros Hfault. simpl. rewrite run_bind.
  unfold attempt_body at 1, try_except.
  by rewrite (run_create_or_update_ok _ _ _ _ _ Hfault).
Qed.

Lemma vectorize_unfold w provider embeddings docs :
  vectorize w provider embeddings docs
  = for_loop (attempt_body w provider embeddings docs) [0; 1; 2].
Proof. reflexivity. Qed.

Lemma rate_limited_retried w provider e :
  rate_limited w provider e → classify w provider e ≠ OpenAIInsufficientQuota.
Proof. intros [H | H]; by rewrite H. Qed.

(** Three failed attempts, none of them the insufficient quota of OpenAI:
    the loop sleeps 2 and 4 seconds between them and returns the message of
    the third failure. *)
Lemma three_failures w provider embeddings docs st e0 e1 e2 :
  let emb := embedder_of st embeddings in
  let texts := page_content <$> docs in
  embed_fault w emb 0 texts = Some e0 →
  embed_fault w emb 1 texts = Some e1 →
  embed_fault w emb 2 texts = Some e2 →
  classify w provider e0 ≠ OpenAIInsufficientQuota →
  classify w provider e1 ≠ OpenAIInsufficientQuota →
  ∃ evs,
    vectorize w provider embeddings docs st
    = (logged st evs, Ok (Some (exhausted_message w provider e2)))
    ∧ effects evs = [EmbedDocuments emb texts; Sleep 2;
                     EmbedDocuments emb texts; Sleep 4;
                     EmbedDocuments emb texts].
Proof.
  intros emb texts H0 H1 H2 K0 K1. subst emb texts. rewrite vectorize_unfold.
  destruct (loop_retries w provider embeddings docs st 0 [1; 2] e0)
    as (line0 & ->); [done..|].
  destruct (loop_retries w provider embeddings docs
              (logged st [EmbedDocuments (embedder_of st embeddings)
                            (page_content <$> docs);
                          Print line0; Sleep (retry_delay * 2 ^ 0)]) 1 [2] e1)
    as (line1 & ->); [done..|].
  rewrite (loop_exhausted w provider embeddings docs _ 2 [] e2); [|done..].
  rewrite !logged_logged. eexists. split; [reflexivity|done].
Qed.

(** A failed first attempt, then a success: one sleep of 2 seconds. *)
Lemma one_failure w provider embeddings docs st e0 :
  let emb := embedder_of st embeddings in
  let texts := page_content <$> docs in
  embed_fault w emb 0 texts = Some e0 →
  embed_fault w emb 1 texts = None →
  classify w provider e0 ≠ OpenAIInsufficientQuota →
  ∃ evs,
    vectorize w provider embeddings docs st
    = ({| vector_db := Some (ingested w st embeddings docs);
          trace := trace st ++ evs |}, Ok None)
    ∧ effects evs = [EmbedDocuments emb texts; Sleep 2; EmbedDocuments emb texts].
Proof.
  intros emb texts H0 H1 K0. subst emb texts. rewrite vectorize_unfold.
  destruct (loop_retries w provider embeddings docs st 0 [1; 2] e0)
    as (line0 & ->); [done..|].
  rewrite loop_succeeds; [|done].
  unfold logged; simpl. rewrite <- app_assoc. eexists. split; [reflexivity|done].
Qed.

(** Two failed attempts, then a success: sleeps of 2 and 4 seconds. *)
Lemma two_failures w provider embeddings docs st e0 e1 :
  let emb := embedder_of st embeddings in
  let texts := page_content <$> docs in
  embed_fault w emb 0 texts = Some e0 →
  embed_fault w emb 1 texts = Some e1 →
  embed_fault w emb 2 texts = None →
  classify w provider e0 ≠ OpenAIInsufficientQuota →
  classify w provider e1 ≠ OpenAIInsufficientQuota →
  ∃ evs,
    vectorize w provider embeddings docs st
    = ({| vector_db := Some (ingested w st embeddings docs);
          trace := trace st ++ evs |}, Ok None)
    ∧ effects evs = [EmbedDocuments emb texts; Sleep 2;
                     EmbedDocuments emb texts; Sleep 4;
                     EmbedDocuments emb texts].
Proof.
  intros emb texts H0 H1 H2 K0 K1. subst emb texts. rewrite vectorize_unfold.
  destruct (loop_retries w provider embeddings docs st 0 [1; 2] e0)
    as (line0 & ->); [done..|].
  destruct (loop_retries w provider embeddings docs
              (logged st [EmbedDocuments (embedder_of st embeddings)
                            (page_content <$> docs);
                          Print line0; Sleep (retry_delay * 2 ^ 0)]) 1 [2] e1)
    as (line1 & ->); [done..|].
  rewrite loop_succeeds; [|done].
  unfold logged; simpl. rewrite <- !app_assoc. eexists.
  split; [reflexivity|done].
Qed.

(** No failure: one attempt. *)
Lemma no_failure w provider embeddings docs st :
  let emb := embedder_of st embeddings in
  let texts := page_content <$> docs in
  embed_fault w emb 0 texts = None →
  vectorize w provider embeddings docs st
  = ({| vector_db := Some (ingested w st embeddings docs);
        trace := trace st ++ [EmbedDocuments emb texts] |}, Ok None).
Proof.
  intros emb texts H0. subst emb texts. rewrite vectorize_unfold.
  by rewrite loop_succeeds.
Qed.

Lemma attempts_effects evs : attempts evs = attempts (effects evs).
Proof.
  unfold attempts, effects. induction evs as [|ev evs IH]; [done|].
  destruct ev; cbn; by rewrite ?IH.
Qed.

Lemma sleeps_effects evs : sleeps evs = sleeps (effects evs).
Proof.
  unfold sleeps, effects. induction evs as [|ev evs IH]; [done|].
  destruct ev; cbn; by rewrite ?IH.
Qed.

(** C3. Under a simulated rate-limit failure that never stops, the embedding
    step of [update_knowledge_base] makes exactly [max_retries] (3) attempts
    before surfacing a failure string, the delay between two attempts
    doubling (2 s, then 4 s) and no delay following the last attempt; and
    when the failure stops after [k] attempts the next attempt succeeds and
    ends the loop. *)
Theorem retry_bound w provider embeddings docs st :
  let emb := embedder_of st embeddings in
  let texts := page_content <$> docs in
  ((∀ attempt, ∃ e, embed_fault w emb attempt texts = Some e
                    ∧ rate_limited w provider e) →
   ∃ evs e,
     embed_fault w emb (max_retries - 1) texts = Some e
     ∧ vectorize w provider embeddings docs st
       = (logged st evs, Ok (Some (exhausted_message w provider e)))
     ∧ effects evs = [EmbedDocuments emb texts; Sleep 2;
                      EmbedDocuments emb texts; Sleep 4;
                      EmbedDocuments emb texts]
     ∧ attempts evs = Z.to_nat max_retries
     ∧ sleeps evs = [2; 4]) ∧
  (∀ k, 0 ≤ k < max_retries →
     (∀ attempt, 0 ≤ attempt < k →
        ∃ e, embed_fault w emb attempt texts = Some e ∧ rate_limited w provider e) →
     embed_fault w emb k texts = None →
     ∃ evs,
       vectorize w provider embeddings docs st
       = ({| vector_db := Some (ingested w st embeddings docs);
             trace := trace st ++ evs |}, Ok None)
       ∧ effects evs = backoff_schedule emb texts k).
Proof.
  intros emb texts. split.
  - intros Hfail.
    destruct (Hfail 0) as (e0 & H0 & K0), (Hfail 1) as (e1 & H1 & K1),
      (Hfail 2) as (e2 & H2 & K2).
    destruct (three_failures w provider embeddings docs st e0 e1 e2)
      as (evs & Hrun & Heff); auto using rate_limited_retried.
    exists evs, e2.
    rewrite (attempts_effects evs), (sleeps_effects evs), Heff.
    by repeat split.
  - intros k Hk Hfail Hstop.
    assert (k = 0 ∨ k = 1 ∨ k = 2) as [-> | [-> | ->]] by (unfold max_retries in Hk; lia).
    + eexists. split; [by apply no_failure|done].
    + destruct (Hfail 0) as (e0 & H0 & K0); [lia|].
      destruct (one_failure w provider embeddings docs st e0)
        as (evs & Hrun & Heff); auto using rate_limited_retried.
      exists evs. by rewrite Heff.
    + destruct (Hfail 0) as (e0 & H0 & K0); [lia|].
      destruct (Hfail 1) as (e1 & H1 & K1); [lia|].
      destruct (two_failures w provider embeddings docs st e0 e1)
        as (evs & Hrun & Heff); auto using rate_limited_retried.
      exists evs. by rewrite Heff.
Qed.

(** ** The fragment splitter *)

Lemma append_cons c (a b : string) : String c a +:+ b = String c (a +:+ b).
Proof. reflexivity. Qed.

Lemma append_empty_r (a : string) : a +:+ "" = a.
Proof. induction a as [|x a IH]; [done|]. by rewrite append_cons, IH. Qed.

Lemma append_assoc (a b c : string) : (a +:+ b) +:+ c = a +:+ b +:+ c.
Proof. induction a as [|x a IH]; [done|]. by rewrite !append_cons, IH. Qed.

Lemma join_points_app l k : join_points (l ++ k) = join_points l +:+ join_points k.
Proof.
  induction l as [|g l IH]; [done|]. simpl. by rewrite IH, append_assoc.
Qed.

Lemma join_code_points s : join_points (code_points s) = s.
Proof.
  induction s as [|c s IH]; [done|]. simpl.
  destruct (starts_with_continuation s); [|simpl; by rewrite IH].
  destruct (code_points s) as [|point points]; simpl in *; by rewrite <- IH.
Qed.

Lemma code_points_nonempty c s : code_points (String c s) ≠ [].
Proof.
  simpl. destruct (starts_with_continuation s); [|done].
  by destruct (code_points s).
Qed.

(** The characters of a text made of characters are those characters. *)
Lemma code_points_join l :
  Forall (λ g, is_point g = true) l →
  Forall (λ g, starts_point g = true) (tail l) →
  code_points (join_points l) = l.
Proof.
  induction l as [|g l IH]; [done|]. intros [Hg Hl]%Forall_cons Hstart.
  simpl in Hstart.
  assert (code_points (join_points l) = l) as Hrest.
  { apply IH; [done|]. destruct l; [done|]. by apply Forall_cons in Hstart as [_ ?]. }
  destruct g as [|c t]; [done|]. simpl in Hg. clear IH.
  change (join_points (String c t :: l)) with (String c t +:+ join_points l).
  revert c. induction t as [|d t IHt]; intros c.
  - rewrite append_cons. change ("" +:+ join_points l) with (join_points l).
    cbn [code_points]. rewrite Hrest.
    destruct l as [|g' l']; [done|].
    apply Forall_cons in Hstart as [Hg' _]. destruct g' as [|c' t']; [done|].
    simpl in Hg'. change (join_points (String c' t' :: l'))
      with (String c' (t' +:+ join_points l')).
    cbn [starts_with_continuation]. by destruct (is_continuation c').
  - unfold all_continuation in Hg. simpl in Hg.
    apply andb_true_iff in Hg as [Hd Ht].
    rewrite append_cons. cbn [code_points]. rewrite append_cons.
    cbn [starts_with_continuation]. rewrite Hd.
    rewrite <- append_cons, (IHt Ht d). done.
Qed.

Lemma code_points_points s :
  Forall (λ g, is_point g = true) (code_points s)
  ∧ Forall (λ g, starts_point g = true) (tail (code_points s)).
Proof.
  induction s as [|c s [IH1 IH2]]; [by split|]. cbn [code_points].
  destruct s as [|c' s']; [by split; repeat constructor|].
  pose proof (code_points_nonempty c' s') as Hne.
  destruct (code_points (String c' s')) as [|point points] eqn:Hpts; [done|].
  assert (∃ t, point = String c' t) as (t & ->).
  { pose proof (join_code_points (String c' s')) as Hj. rewrite Hpts in Hj.
    apply Forall_cons in IH1 as [Hp _]. destruct point as [|x t]; [done|].
    simpl in Hj. injection Hj as -> _. by eexists. }
  apply Forall_cons in IH1 as [Hp Hps]. simpl in IH2.
  cbn [starts_with_continuation].
  destruct (is_continuation c') eqn:Hc.
  - split; [|done]. constructor; [|done].
    unfold is_point, all_continuation in *. simpl. by rewrite Hc.
  - split; [constructor; [done|by constructor]|].
    simpl. constructor; [|done]. simpl. by rewrite Hc.
Qed.

Lemma Forall_tail {A} (P : A → Prop) l : Forall P l → Forall P (tail l).
Proof. destruct l; [done|]. by intros [_ ?]%Forall_cons. Qed.

Lemma tail_take {A} n (l : list A) : tail (take (S n) l) = take n (tail l).
Proof. destruct l; [by destruct n|done]. Qed.

Lemma tail_drop {A} n (l : list A) : tail (drop n l) = drop n (tail l).
Proof.
  revert l. induction n as [|n IH]; intros l; [done|].
  destruct l as [|x l]; [done|]. simpl. rewrite IH.
  destruct l; [by destruct n|done].
Qed.

Lemma code_points_take n s :
  code_points (join_points (take n (code_points s))) = take n (code_points s).
Proof.
  destruct (code_points_points s) as [H1 H2]. apply code_points_join.
  - by apply Forall_take.
  - destruct n as [|n]; [done|]. rewrite tail_take. by apply Forall_take.
Qed.

Lemma drop_tail_Forall {A} (P : A → Prop) n (l : list A) :
  Forall P (tail l) → Forall P (tail (drop n l)).
Proof. intros H. rewrite tail_drop. by apply Forall_drop. Qed.

Lemma code_points_drop n s :
  code_points (join_points (drop n (code_points s))) = drop n (code_points s).
Proof.
  destruct (code_points_points s) as [H1 H2]. apply code_points_join.
  - by apply Forall_drop.
  - by apply drop_tail_Forall.
Qed.

Lemma windows_unfold fuel size step text :
  windows (S fuel) size step text
  = if (length text <=? size)%nat then [text]
    else take size text :: windows fuel size step (drop step text).
Proof. reflexivity. Qed.

(** The fuel [split_text] gives is enough: with one unit of fuel per
    character and a positive step, the last window always reaches the end of
    the text, so more fuel gives the same windows. *)
Lemma windows_fuel fuel extra size step text :
  (0 < step)%nat → (0 < size)%nat →
  (length text ≤ fuel)%nat → (0 < fuel)%nat →
  windows (fuel + extra) size step text = windows fuel size step text.
Proof.
  intros Hstep Hsize. revert text. induction fuel as [|fuel IH]; intros text Hlen Hpos; [lia|].
  change (S fuel + extra)%nat with (S (fuel + extra)). rewrite !windows_unfold.
  destruct (length text <=? size)%nat eqn:Hfit; [done|].
  apply Nat.leb_gt in Hfit. f_equal.
  destruct fuel as [|fuel']; [lia|].
  apply IH; [|lia]. rewrite length_drop. lia.
Qed.

Lemma split_text_nonempty ts text : text ≠ "" → split_text ts text ≠ [].
Proof.
  intros Htext. unfold split_text, char_length. destruct text as [|c text]; [done|].
  simpl String.eqb. cbv iota.
  pose proof (code_points_nonempty c text) as Hne.
  destruct (code_points (String c text)) as [|g l]; [done|].
  simpl length. rewrite windows_unfold. by destruct (_ <=? _)%nat.
Qed.

Lemma char_length_chars_to n s :
  char_length (chars_to n s) = (n `min` char_length s)%nat.
Proof. unfold char_length, chars_to. by rewrite code_points_take, length_take. Qed.

Lemma char_length_chars_from n s :
  char_length (chars_from n s) = (char_length s - n)%nat.
Proof. unfold char_length, chars_from. by rewrite code_points_drop, length_drop. Qed.

Lemma chars_to_from n s : chars_to n s +:+ chars_from n s = s.
Proof.
  unfold chars_to, chars_from.
  by rewrite <- join_points_app, take_drop, join_code_points.
Qed.

Lemma split_text_three text :
  (1900 < char_length text)%nat → (char_length text ≤ 2800)%nat →
  ∃ f0 f1 f2,
    split_text {| chunk_size := 1000; chunk_overlap := 100 |} text = [f0; f1; f2]
    ∧ char_length f0 = 1000%nat ∧ char_length f1 = 1000%nat
    ∧ char_length f2 = (char_length text - 1800)%nat
    ∧ three_windows 100 text f0 f1 f2.
Proof.
  intros Hlow Hhigh.
  exists (chars_to 1000 text), (chars_to 1000 (chars_from 900 text)),
    (chars_from 1800 text).
  assert (char_length (chars_to 1000 text) = 1000%nat) as L0
    by (rewrite char_length_chars_to; lia).
  assert (char_length (chars_to 1000 (chars_from 900 text)) = 1000%nat) as L1
    by (rewrite char_length_chars_to, char_length_chars_from; lia).
  split; [|split; [done|split; [done|split; [rewrite char_length_chars_from; lia|]]]].
  - unfold split_text.
    assert (String.eqb text "" = false) as ->
      by (destruct text; [unfold char_length in Hlow; simpl in Hlow; lia|done]).
    change (chunk_size _ - chunk_overlap _)%nat with 900%nat.
    change (chunk_size _) with 1000%nat.
    unfold char_length in Hlow, Hhigh |- *.
    destruct (length (code_points text)) as [|[|[|fuel]]] eqn:Hfuel; [lia..|].
    rewrite !windows_unfold.
    rewrite (proj2 (Nat.leb_gt _ _)) by lia.
    rewrite (proj2 (Nat.leb_gt _ _)) by (rewrite length_drop; lia).
    rewrite (proj2 (Nat.leb_le _ _)) by (rewrite !length_drop; lia).
    rewrite drop_drop. unfold chars_to, chars_from. by rewrite code_points_drop.
  - unfold three_windows. rewrite L0, L1.
    change (1000 - 100)%nat with 900%nat.
    assert (char_length (chars_to 100 (chars_to 1000 (chars_from 900 text)))
            = 100%nat) as M1
      by (rewrite char_length_chars_to, L1; lia).
    assert (char_length (chars_to 100 (chars_from 1800 text)) = 100%nat) as M2
      by (rewrite char_length_chars_to, char_length_chars_from; lia).
    assert (text = join_points (code_points text)) as Htext
      by (by rewrite join_code_points).
    refine (conj _ (conj _ (conj _ (conj _ (conj M1 (conj _ (conj M2 _)))))));
      unfold substring_of, chars_to, chars_from;
      repeat (rewrite code_points_take || rewrite code_points_drop).
    + exists "", (join_points (drop 1000 (code_points text))).
      change ("" +:+ ?x) with x. by rewrite <- join_points_app, take_drop.
    + exists (join_points (take 900 (code_points text))),
        (join_points (drop 1900 (code_points text))).
      rewrite <- !join_points_app. rewrite Htext at 1. f_equal.
      rewrite <- (take_drop 900 (code_points text)) at 1. f_equal.
      rewrite <- (take_drop 1000 (drop 900 (code_points text))) at 1.
      by rewrite drop_drop.
    + exists (join_points (take 1800 (code_points text))), "".
      by rewrite append_empty_r, <- join_points_app, take_drop.
    + f_equal. rewrite take_take. change (100 `min` 1000)%nat with 100%nat.
      by rewrite (take_drop_commute _ 100 900).
    + f_equal. rewrite (take_drop_commute _ 1000 900), drop_drop.
      change (900 + 1000)%nat with 1900%nat. change (900 + 900)%nat with 1800%nat.
      by rewrite (take_drop_commute _ 100 1800).
    + rewrite <- !join_points_app. rewrite Htext at 1. f_equal.
      rewrite (take_drop_commute _ 1000 900), !drop_drop.
      change (900 + 1000)%nat with 1900%nat. change (900 + 100)%nat with 1000%nat.
      change (1800 + 100)%nat with 1900%nat.
      rewrite (drop_take_drop _ 1000 1900) by lia. by rewrite take_drop.
Qed.

Lemma char_length_cons c s : (char_length s ≤ char_length (String c s))%nat.
Proof.
  unfold char_length. cbn [code_points].
  destruct (starts_with_continuation s); [|simpl; lia].
  destruct (code_points s); simpl; lia.
Qed.

Lemma char_length_append a b : (char_length b ≤ char_length (a +:+ b))%nat.
Proof.
  induction a as [|c a IH]; [done|]. rewrite append_cons.
  etransitivity; [exact IH|apply char_length_cons].
Qed.

Lemma result_map_Forall2 {A B} (f : A → result B) l l' :
  result_map f l = Ok l' → Forall2 (λ x y, f x = Ok y) l l'.
Proof.
  revert l'. induction l as [|x l IH]; intros l' H; simpl in H.
  - injection H as <-. constructor.
  - destruct (f x) as [y|e] eqn:Hy; simpl in H; [|done].
    destruct (result_map f l) as [ys|e] eqn:Hys; simpl in H; [|done].
    injection H as <-. constructor; eauto.
Qed.

(** Enrichment puts a header before the content and keeps the metadata. *)
Lemma enrich_document_longer w doc enriched :
  enrich_document w doc = Ok enriched →
  metadata enriched = metadata doc
  ∧ (∃ header, page_content enriched = header +:+ page_content doc)
  ∧ (char_length (page_content doc) ≤ char_length (page_content enriched))%nat.
Proof.
  unfold enrich_document. destruct (upper_value _) as [up|e]; [|done].
  cbv beta iota zeta. unfold mbind, result_bind.
  generalize (py_str w (default (JStr up) (metadata doc !! "source_name"))).
  generalize (py_str w (default (JStr "") (metadata doc !! "Title"))).
  generalize (py_str w (default (JStr "") (metadata doc !! "Published"))).
  generalize (py_str w (default (JStr "") (metadata doc !! "url"))).
  intros url date title source_name [= <-]. cbn [page_content metadata].
  assert (∃ header,
            "FONTE: " +:+ source_name +:+ nl +:+ "TÍTULO: " +:+ title +:+ nl
            +:+ "DATA: " +:+ date +:+ nl +:+ "LINK: " +:+ url +:+ nl
            +:+ "RESUMO: " +:+ page_content doc
            = header +:+ page_content doc) as (header & Hheader).
  { exists ("FONTE: " +:+ source_name +:+ nl +:+ "TÍTULO: " +:+ title +:+ nl
            +:+ "DATA: " +:+ date +:+ nl +:+ "LINK: " +:+ url +:+ nl +:+ "RESUMO: ").
    by rewrite !append_assoc. }
  split; [done|]. split; [by exists header|].
  rewrite Hheader. apply char_length_append.
Qed.

(** C8 (as amended). Splitting two ingested documents of 2500 characters
    each with [chunk_size = 1000] and [overlap = 100]: the splitter is handed
    their enriched contents, which are longer than the 2500 characters by the
    header of the enricher; when an enriched content has at most 2800
    characters the document gives exactly 3 fragments (6 in all for two such
    documents), in the order of the documents and carrying their metadata;
    each fragment's text is a substring of its parent's enriched content and
    consecutive fragments of one document share exactly 100 characters at
    their boundary. *)
Theorem split_two_ingested_documents w d1 d2 e1 e2 st :
  char_length (page_content d1) = 2500%nat →
  char_length (page_content d2) = 2500%nat →
  enrich_documents w [d1; d2] st = (st, Ok [e1; e2]) →
  (char_length (page_content e1) ≤ 2800)%nat →
  (char_length (page_content e2) ≤ 2800)%nat →
  RecursiveCharacterTextSplitter 1000 100
  = Ok {| chunk_size := 1000; chunk_overlap := 100 |} ∧
  metadata e1 = metadata d1 ∧ metadata e2 = metadata d2 ∧
  (∃ header, page_content e1 = header +:+ page_content d1) ∧
  (∃ header, page_content e2 = header +:+ page_content d2) ∧
  ∃ a0 a1 a2 b0 b1 b2,
    split_documents {| chunk_size := 1000; chunk_overlap := 100 |} [e1; e2]
    = [fragment e1 a0; fragment e1 a1; fragment e1 a2;
       fragment e2 b0; fragment e2 b1; fragment e2 b2]
    ∧ three_windows 100 (page_content e1) a0 a1 a2
    ∧ three_windows 100 (page_content e2) b0 b1 b2.
Proof.
  intros L1 L2 Henrich H1 H2. split; [done|].
  assert (result_map (enrich_document w) [d1; d2] = Ok [e1; e2]) as Hmap
    by (unfold enrich_documents, lift in Henrich; congruence).
  clear Henrich. apply result_map_Forall2 in Hmap as Henrich.
  apply Forall2_cons in Henrich as [E1 Henrich].
  apply Forall2_cons in Henrich as [E2 _].
  apply enrich_document_longer in E1 as (M1 & P1 & G1), E2 as (M2 & P2 & G2).
  repeat (split; [done|]).
  destruct (split_text_three (page_content e1)) as (a0 & a1 & a2 & Ha & _ & _ & _ & Wa);
    [lia..|].
  destruct (split_text_three (page_content e2)) as (b0 & b1 & b2 & Hb & _ & _ & _ & Wb);
    [lia..|].
  exists a0, a1, a2, b0, b1, b2. split; [|done].
  unfold split_documents. simpl. by rewrite Ha, Hb.
Qed.

(** ** The index only grows *)

Lemma keeps_db_get_embeddings w : keeps_db (get_embeddings w).
Proof. unfold get_embeddings, construct. repeat keeps_db_step. Qed.

Lemma keeps_db_on_embedding_error w provider attempt e :
  keeps_db (on_embedding_error w provider attempt e).
Proof.
  unfold on_embedding_error, openai_treatment, generic_treatment.
  repeat keeps_db_step.
Qed.

Lemma keeps_db_query_rag w question : keeps_db (query_rag w question).
Proof. unfold query_rag, similarity_search. repeat keeps_db_step. Qed.

Lemma ingested_ext w st st' embeddings docs :
  vector_db st' = vector_db st →
  ingested w st' embeddings docs = ingested w st embeddings docs.
Proof. intros H. unfold ingested, embedder_of. by rewrite H. Qed.

(** The embedding loop either leaves the index as it was or ingests the
    fragments, once. *)
Lemma loop_db w provider embeddings docs items st st' r :
  for_loop (attempt_body w provider embeddings docs) items st = (st', r) →
  vector_db st' = vector_db st
  ∨ vector_db st' = Some (ingested w st embeddings docs).
Proof.
  revert st. induction items as [|attempt items IH]; intros st; simpl.
  { intros [= <- _]. by left. }
  rewrite run_bind. unfold attempt_body at 1, try_except.
  destruct (embed_fault w (embedder_of st embeddings) attempt (page_content <$> docs))
    as [e|] eqn:Hfault.
  - rewrite (run_create_or_update_fault _ _ _ _ _ _ Hfault). simpl.
    pose proof (keeps_db_on_embedding_error w provider attempt e
      (logged st [EmbedDocuments (embedder_of st embeddings) (page_content <$> docs)]))
      as Hdb.
    destruct (on_embedding_error _ _ _ _ _) as [st1 [c|e1]]; simpl in Hdb;
      [|intros [= <- _]; by left].
    destruct c; simpl; try (intros [= <- _]; by left);
      intros Hrest; apply IH in Hrest;
      by rewrite (ingested_ext _ _ _ _ _ Hdb), Hdb in Hrest.
  - rewrite (run_create_or_update_ok _ _ _ _ _ Hfault). simpl.
    intros [= <- _]. by right.
Qed.

Lemma result_map_length {A B} (f : A → result B) l l' :
  result_map f l = Ok l' → length l' = length l.
Proof.
  revert l'. induction l as [|x l IH]; intros l' H; simpl in H.
  - by injection H as <-.
  - destruct (f x) as [y|e]; simpl in H; [|done].
    destruct (result_map f l) as [ys|e] eqn:Hys; simpl in H; [|done].
    injection H as <-. simpl. by rewrite (IH ys).
Qed.

Lemma result_map_Forall {A B} (f : A → result B) (P : B → Prop) l l' :
  (∀ x y, f x = Ok y → P y) → result_map f l = Ok l' → Forall P l'.
Proof.
  intros Hf. revert l'. induction l as [|x l IH]; intros l' H; simpl in H.
  - injection H as <-. constructor.
  - destruct (f x) as [y|e] eqn:Hy; simpl in H; [|done].
    destruct (result_map f l) as [ys|e] eqn:Hys; simpl in H; [|done].
    injection H as <-. constructor; eauto.
Qed.

Lemma enrich_document_nonempty w doc doc' :
  enrich_document w doc = Ok doc' → page_content doc' ≠ "".
Proof.
  unfold enrich_document. destruct (upper_value _) as [up|e]; simpl; [|done].
  by intros [= <-].
Qed.

Lemma split_documents_nonempty ts docs :
  docs ≠ [] → Forall (λ doc, page_content doc ≠ "") docs →
  split_documents ts docs ≠ [].
Proof.
  intros Hdocs Hall. destruct docs as [|doc docs]; [done|].
  apply Forall_cons in Hall as [Hdoc _].
  unfold split_documents. simpl.
  pose proof (split_text_nonempty ts (page_content doc) Hdoc) as Hsplit.
  by destruct (split_text ts (page_content doc)).
Qed.

(** What one ingestion does to the index: nothing, or it adds the fragments
    of a non-empty list. *)
Lemma update_try_db w tema max_papers sources st st' r :
  update_knowledge_base_try w tema max_papers sources st = (st', r) →
  vector_db st' = vector_db st
  ∨ ∃ embeddings docs,
      docs ≠ [] ∧ vector_db st' = Some (ingested w st embeddings docs).
Proof.
  unfold update_knowledge_base_try. fold (source_ids sources).
  rewrite run_bind. unfold lift at 1. rewrite floordiv_source_ids.
  rewrite run_bind. unfold print at 1, emit at 1.
  rewrite run_bind. unfold print at 1, emit at 1.
  rewrite run_bind.
  match goal with |- context [search_all_sources w tema ?l ?n ?s] =>
    pose proof (keeps_db_search_all_sources w tema l n s) as Hdb1;
    destruct (search_all_sources w tema l n s) as [st1 [raw|e]] end;
    simpl in Hdb1; [|intros [= <- _]; by left].
  destruct raw as [|doc raw]; [intros [= <- _]; by left|].
  rewrite run_bind. unfold enrich_documents, lift at 1.
  destruct (result_map (enrich_document w) (doc :: raw)) as [enriched|e] eqn:Henrich;
    [|intros [= <- _]; by left].
  assert (split_documents {| chunk_size := 1000; chunk_overlap := 100 |} enriched ≠ [])
    as Hfragments.
  { apply split_documents_nonempty;
      [ apply result_map_length in Henrich; by destruct enriched
      | eapply result_map_Forall; [|done]; apply enrich_document_nonempty ]. }
  rewrite run_bind. unfold print at 1, emit at 1.
  rewrite run_bind. unfold lift at 1.
  change (RecursiveCharacterTextSplitter 1000 100)
    with (Ok {| chunk_size := 1000; chunk_overlap := 100 |}).
  cbv beta iota. rewrite run_bind. unfold print at 1, emit at 1.
  rewrite run_bind.
  match goal with |- context [get_embeddings w ?s] =>
    pose proof (keeps_db_get_embeddings w s) as Hdb2;
    destruct (get_embeddings w s) as [st2 [embeddings|e]] end;
    simpl in Hdb2; [|intros [= <- _]; left; congruence].
  rewrite run_bind. unfold print at 1, emit at 1.
  rewrite run_bind. rewrite vectorize_unfold.
  match goal with |- context [for_loop ?b ?l ?s] =>
    destruct (for_loop b l s) as [st3 returned] eqn:Hloop end.
  apply loop_db in Hloop. simpl in Hloop.
  assert (vector_db st3 = vector_db st
          ∨ vector_db st3 = Some (ingested w st embeddings
              (split_documents {| chunk_size := 1000; chunk_overlap := 100 |}
                 enriched))) as Hst3.
  { destruct Hloop as [-> | ->]; [left; congruence|right].
    f_equal. apply ingested_ext. simpl. congruence. }
  intros Hout.
  assert (st' = st3) as -> by (by destruct returned as [[?|]|?]; injection Hout).
  destruct Hst3 as [? | ?]; [by left|right]. by eexists _, _.
Qed.

Lemma ingested_size w st embeddings docs :
  length (index (ingested w st embeddings docs))
  = (index_size st + length docs)%nat.
Proof.
  unfold ingested, index_size. simpl.
  rewrite length_app, length_zip_with, !length_fmap.
  destruct (vector_db st); simpl; lia.
Qed.

(** What one call of [update_knowledge_base] does to the index. *)
Lemma update_db w tema max_papers sources st st' r :
  update_knowledge_base w tema max_papers sources st = (st', r) →
  vector_db st' = vector_db st
  ∨ ∃ embeddings docs,
      docs ≠ [] ∧ vector_db st' = Some (ingested w st embeddings docs).
Proof.
  unfold update_knowledge_base. rewrite run_bind. unfold print at 1, emit at 1.
  unfold try_except.
  match goal with |- context [update_knowledge_base_try w _ _ _ ?s] =>
    destruct (update_knowledge_base_try w tema max_papers sources s)
      as [st1 r1] eqn:Htry end.
  apply update_try_db in Htry. simpl in Htry. intros Hout.
  assert (st' = st1) as -> by (by destruct r1; injection Hout).
  destruct Htry as [? | (emb & docs & ? & ->)]; [by left|right].
  by exists emb, docs.
Qed.

Lemma perform_grows st c :
  (index_size st ≤ index_size (perform st c))%nat
  ∧ (absent_or_nonempty st → absent_or_nonempty (perform st c)).
Proof.
  destruct c as [w tema max_papers sources | w question]; simpl.
  - destruct (update_knowledge_base w tema max_papers sources st)
      as [st' r] eqn:Hrun.
    apply update_db in Hrun as [Hsame | (emb & docs & Hdocs & Hnew)];
      unfold index_size, absent_or_nonempty; simpl.
    + by rewrite Hsame.
    + rewrite Hnew, ingested_size. split; [unfold index_size; lia|].
      intros _ Hempty. apply (f_equal length) in Hempty.
      rewrite ingested_size in Hempty. destruct docs; [done|simpl in Hempty; lia].
  - unfold index_size, absent_or_nonempty.
    by rewrite (keeps_db_query_rag w question st).
Qed.

Lemma run_snoc calls c : run (calls ++ [c]) = perform (run calls) c.
Proof. unfold run. by rewrite foldl_app. Qed.

Lemma run_grows calls more :
  (index_size (run calls) ≤ index_size (run (calls ++ more)))%nat.
Proof.
  induction more as [|c more IH] using rev_ind; [by rewrite app_nil_r|].
  rewrite app_assoc, run_snoc.
  pose proof (perform_grows (run (calls ++ more)) c) as [Hle _]. lia.
Qed.

(** C9. After every sequence of [update_knowledge_base] and [query_rag] calls
    the vector index is either absent or non-empty, and its entry count never
    decreases across calls: the size after two ingestions of the same topic
    is at least the size after one. *)
Theorem index_absent_or_nonempty_and_growing calls :
  absent_or_nonempty (run calls) ∧
  (∀ more, (index_size (run calls) ≤ index_size (run (calls ++ more)))%nat) ∧
  (∀ w1 w2 tema max_papers sources,
     (index_size (run (calls ++ [Update w1 tema max_papers sources]))
      ≤ index_size (run (calls ++ [Update w1 tema max_papers sources;
                                   Update w2 tema max_papers sources])))%nat).
Proof.
  split; [|split].
  - induction calls as [|c calls IH] using rev_ind; [done|].
    rewrite run_snoc. by apply perform_grows.
  - apply run_grows.
  - intros w1 w2 tema max_papers sources.
    change [Update w1 tema max_papers sources; Update w2 tema max_papers sources]
      with ([Update w1 tema max_papers sources] ++ [Update w2 tema max_papers sources]).
    rewrite app_assoc. apply run_grows.
Qed.

(** ** The embedding model factory *)

Lemma silent_ret {A} (a : A) : silent (mret a).
Proof. by intros st. Qed.

Lemma silent_raise {A} e : silent (@raise A e).
Proof. by intros st. Qed.

Lemma silent_lift {A} (r : result A) : silent (lift r).
Proof. by intros st. Qed.

Lemma silent_import w module : silent (import_ w module).
Proof. unfold import_. by destruct (importable w module). Qed.

Lemma silent_bind {A B} (m : M A) (f : A → M B) :
  silent m → (∀ a, silent (f a)) → silent (m ≫= f).
Proof.
  intros Hm Hf st. rewrite run_bind. specialize (Hm st).
  destruct (m st) as [st' [a|e]]; simpl in *; [|done].
  by rewrite Hf.
Qed.

Lemma silent_try_except {A} (body : M A) catches handler :
  silent body → (∀ e, silent (handler e)) →
  silent (try_except body catches handler).
Proof.
  intros Hm Hh st. unfold try_except. specialize (Hm st).
  destruct (body st) as [st' [a|e]]; simpl in *; [done|].
  destruct (catches e); [|done]. by rewrite Hh.
Qed.

Lemma silent_try_except2 {A} (body : M A) c1 h1 c2 h2 :
  silent body → (∀ e, silent (h1 e)) → (∀ e, silent (h2 e)) →
  silent (try_except2 body c1 h1 c2 h2).
Proof.
  intros Hm H1 H2 st. unfold try_except2. specialize (Hm st).
  destruct (body st) as [st' [a|e]]; simpl in *; [done|].
  destruct (c1 e); [by rewrite H1|]. destruct (c2 e); [by rewrite H2|done].
Qed.

Ltac silent_step :=
  lazymatch goal with
  | |- silent (mret _) => apply silent_ret
  | |- silent (raise _) => apply silent_raise
  | |- silent (lift _) => apply silent_lift
  | |- silent (import_ _ _) => apply silent_import
  | |- silent (_ ≫= _) => apply silent_bind; [|intros ?]
  | |- silent (try_except _ _ _) => apply silent_try_except; [|intros ?]
  | |- silent (try_except2 _ _ _ _ _) =>
      apply silent_try_except2; [|intros ?|intros ?]
  | |- silent (if ?b then _ else _) => destruct b
  | |- silent (match ?x with _ => _ end) => destruct x
  end.

Lemma silent_get_embeddings w : silent (get_embeddings w).
Proof. unfold get_embeddings, construct. repeat silent_step. Qed.

Lemma run_silent {A} (m : M A) st st' r : silent m → m st = (st', r) → st' = st.
Proof. intros Hm Hrun. specialize (Hm st). by rewrite Hrun in Hm. Qed.

Lemma eqb_true (a b : string) : String.eqb a b = true → a = b.
Proof. apply String.eqb_eq. Qed.

(** X1. Whenever [get_embeddings] returns a model, it is the one of the
    provider named by [EMBEDDING_PROVIDER], compared without regard to case
    and with "local" as the default: the OpenAI model
    "text-embedding-3-small", the Gemini model "models/embedding-001" with
    the non-empty [GOOGLE_API_KEY], or the Ollama model configured by
    [LOCAL_EMBEDDING_MODEL] and [OLLAMA_BASE_URL]; the package of the
    provider is installed, the constructor did not fail, and nothing was
    printed, requested or assigned on the way. *)
Theorem get_embeddings_selects w st st' emb :
  get_embeddings w st = (st', Ok emb) →
  st' = st ∧ new_embeddings w emb = None ∧
  ((embedding_provider w = "openai"
    ∧ importable w "langchain_openai" = true
    ∧ emb = OpenAIEmbeddings "text-embedding-3-small")
   ∨ (embedding_provider w = "gemini"
      ∧ importable w "langchain_google_genai" = true
      ∧ ∃ key, getenv w "GOOGLE_API_KEY" = Some key ∧ key ≠ ""
               ∧ emb = GoogleGenerativeAIEmbeddings "models/embedding-001" key)
   ∨ (embedding_provider w = "local"
      ∧ importable w "langchain_community.embeddings" = true
      ∧ emb = OllamaEmbeddings (local_model w) (ollama_url w))).
Proof.
  intros Hrun. split; [by eapply run_silent, Hrun; apply silent_get_embeddings|].
  revert Hrun. unfold get_embeddings. fold (embedding_provider w).
  fold (local_model w) (ollama_url w).
  destruct (String.eqb (embedding_provider w) "openai") eqn:Hopenai.
  { apply eqb_true in Hopenai. rewrite run_bind. unfold import_, construct.
    destruct (importable w "langchain_openai"); [|done]. simpl.
    destruct (new_embeddings w _) eqn:Hnew; [done|].
    intros [= _ <-]. split; [done|]. by left. }
  destruct (String.eqb (embedding_provider w) "gemini") eqn:Hgemini.
  { apply eqb_true in Hgemini. unfold try_except. rewrite run_bind.
    unfold import_, construct.
    destruct (importable w "langchain_google_genai"); [|done]. simpl.
    destruct (getenv w "GOOGLE_API_KEY") as [key|] eqn:Hkey; simpl; [|done].
    destruct (String.eqb key "") eqn:Hempty; [done|].
    destruct (new_embeddings w _) eqn:Hnew; simpl.
    { by destruct (an_ImportError e). }
    intros [= _ <-]. split; [done|]. right; left.
    split; [done|split; [done|]].
    exists key. split; [done|split; [|done]].
    intros ->. by rewrite String.eqb_refl in Hempty. }
  destruct (String.eqb (embedding_provider w) "local") eqn:Hlocal; [|done].
  apply eqb_true in Hlocal. unfold try_except2. rewrite run_bind.
  unfold import_, construct.
  destruct (importable w "langchain_community.embeddings"); [|done]. simpl.
  destruct (new_embeddings w _) eqn:Hnew; simpl.
  { destruct (an_ImportError e); [done|]. simpl.
    by repeat (match goal with |- context [if ?b then _ else _] => destruct b end). }
  intros [= _ <-]. split; [done|]. by right; right.
Qed.

Lemma get_embeddings_selects_witness :
  initial_state = initial_state
  ∧ new_embeddings (with_env "EMBEDDING_PROVIDER" "OpenAI" calm)
      (OpenAIEmbeddings "text-embedding-3-small") = None
  ∧ ((embedding_provider (with_env "EMBEDDING_PROVIDER" "OpenAI" calm) = "openai"
      ∧ importable (with_env "EMBEDDING_PROVIDER" "OpenAI" calm) "langchain_openai"
        = true
      ∧ OpenAIEmbeddings "text-embedding-3-small"
        = OpenAIEmbeddings "text-embedding-3-small")
     ∨ (embedding_provider (with_env "EMBEDDING_PROVIDER" "OpenAI" calm) = "gemini"
        ∧ importable (with_env "EMBEDDING_PROVIDER" "OpenAI" calm)
            "langchain_google_genai" = true
        ∧ ∃ key, getenv (with_env "EMBEDDING_PROVIDER" "OpenAI" calm) "GOOGLE_API_KEY"
                 = Some key ∧ key ≠ ""
                 ∧ OpenAIEmbeddings "text-embedding-3-small"
                   = GoogleGenerativeAIEmbeddings "models/embedding-001" key)
     ∨ (embedding_provider (with_env "EMBEDDING_PROVIDER" "OpenAI" calm) = "local"
        ∧ importable (with_env "EMBEDDING_PROVIDER" "OpenAI" calm)
            "langchain_community.embeddings" = true
        ∧ OpenAIEmbeddings "text-embedding-3-small"
          = OllamaEmbeddings (local_model (with_env "EMBEDDING_PROVIDER" "OpenAI" calm))
              (ollama_url (with_env "EMBEDDING_PROVIDER" "OpenAI" calm)))).
Proof.
  apply (get_embeddings_selects (with_env "EMBEDDING_PROVIDER" "OpenAI" calm)
           initial_state initial_state (OpenAIEmbeddings "text-embedding-3-small")).
  reflexivity.
Defined.

Lemma eqb_false (a b : string) : a ≠ b → String.eqb a b = false.
Proof. apply String.eqb_neq. Qed.

(** X2. The configuration errors of [get_embeddings]: a provider name other
    than "openai", "gemini" and "local" raises a [ValueError] naming it;
    "gemini" with its package installed but no (or an empty)
    [GOOGLE_API_KEY] raises the [ValueError] about the key, which the
    [except ImportError] clause does not catch; a missing package raises an
    [ImportError] with the install hint for "gemini" and "local", and the
    interpreter's own [ImportError] for "openai". The state is left as it
    was. *)
Theorem get_embeddings_rejects w st :
  (embedding_provider w ≠ "openai" → embedding_provider w ≠ "gemini" →
   embedding_provider w ≠ "local" →
   get_embeddings w st = (st, Err (unsupported_provider (embedding_provider w)))) ∧
  (embedding_provider w = "gemini" →
   importable w "langchain_google_genai" = true →
   from_option id "" (getenv w "GOOGLE_API_KEY") = "" →
   get_embeddings w st
   = (st, Err (Raised ValueError "GOOGLE_API_KEY not found in .env"))) ∧
  (embedding_provider w = "gemini" →
   importable w "langchain_google_genai" = false →
   get_embeddings w st = (st, Err gemini_not_installed)) ∧
  (embedding_provider w = "local" →
   importable w "langchain_community.embeddings" = false →
   get_embeddings w st = (st, Err community_not_installed)) ∧
  (embedding_provider w = "openai" →
   importable w "langchain_openai" = false →
   get_embeddings w st
   = (st, Err (Raised ImportError "No module named 'langchain_openai'"))).
Proof.
  unfold get_embeddings. fold (embedding_provider w).
  repeat split.
  - intros H1 H2 H3. by rewrite !eqb_false.
  - intros -> Himp Hkey. simpl. unfold try_except. rewrite run_bind.
    unfold import_. rewrite Himp. simpl. by rewrite Hkey.
  - intros -> Himp. simpl. unfold try_except. rewrite run_bind.
    unfold import_. by rewrite Himp.
  - intros -> Himp. simpl. unfold try_except2. rewrite run_bind.
    unfold import_. by rewrite Himp.
  - intros -> Himp. simpl. rewrite run_bind. unfold import_. by rewrite Himp.
Qed.

Lemma get_embeddings_rejects_witness :
  get_embeddings (with_env "EMBEDDING_PROVIDER" "Cohere" calm) initial_state
  = (initial_state, Err (unsupported_provider "cohere"))
  ∧ get_embeddings (with_env "EMBEDDING_PROVIDER" "gemini" calm) initial_state
    = (initial_state, Err (Raised ValueError "GOOGLE_API_KEY not found in .env")).
Proof.
  split.
  - by apply (proj1 (get_embeddings_rejects
                       (with_env "EMBEDDING_PROVIDER" "Cohere" calm) initial_state)).
  - by apply (proj1 (proj2 (get_embeddings_rejects
                              (with_env "EMBEDDING_PROVIDER" "gemini" calm)
                              initial_state))).
Defined.

(** X3. When the constructor of the embedding model raises [e],
    [get_embeddings] lets [e] through for "openai"; for "gemini" it lets [e]
    through unless it is an [ImportError], which becomes the install hint;
    for "local" an [ImportError] becomes the install hint, an error whose
    text mentions "connection", "refused" or "unreachable" becomes a
    [ConnectionError] naming the Ollama address, one that mentions "model"
    and "not found" becomes a [ValueError] naming the model, and any other
    error is raised again unchanged. *)
Theorem get_embeddings_constructor_failure w st e :
  (embedding_provider w = "openai" →
   importable w "langchain_openai" = true →
   new_embeddings w (OpenAIEmbeddings "text-embedding-3-small") = Some e →
   get_embeddings w st = (st, Err e)) ∧
  (∀ key,
     embedding_provider w = "gemini" →
     importable w "langchain_google_genai" = true →
     getenv w "GOOGLE_API_KEY" = Some key → key ≠ "" →
     new_embeddings w (GoogleGenerativeAIEmbeddings "models/embedding-001" key)
     = Some e →
     get_embeddings w st
     = (st, Err (if an_ImportError e then gemini_not_installed else e))) ∧
  (embedding_provider w = "local" →
   importable w "langchain_community.embeddings" = true →
   new_embeddings w (OllamaEmbeddings (local_model w) (ollama_url w)) = Some e →
   get_embeddings w st
   = (st, Err (if an_ImportError e then community_not_installed
               else ollama_failure w e))).
Proof.
  unfold get_embeddings. fold (embedding_provider w).
  fold (local_model w) (ollama_url w).
  repeat split.
  - intros -> Himp Hnew. simpl. rewrite run_bind. unfold import_, construct.
    rewrite Himp. simpl. by rewrite Hnew.
  - intros key -> Himp Hkey Hne Hnew. simpl. unfold try_except.
    rewrite run_bind. unfold import_, construct. rewrite Himp. simpl.
    rewrite Hkey. simpl. rewrite (eqb_false _ _ Hne), Hnew. simpl.
    by destruct (an_ImportError e).
  - intros -> Himp Hnew. simpl. unfold try_except2.
    rewrite run_bind. unfold import_, construct. rewrite Himp. simpl.
    rewrite Hnew. simpl. unfold ollama_failure.
    by repeat (match goal with |- context [if ?b then _ else _] => destruct b end).
Qed.

(** ** The source adapters, the aggregator and the enricher *)

Lemma for_each_lift {A B} (f : A → result B) l st :
  for_each (λ x, lift (f x)) l st = (st, result_map f l).
Proof.
  induction l as [|x l IH]; simpl; [done|].
  rewrite run_bind. unfold lift at 1. destruct (f x) as [y|e]; simpl; [|done].
  rewrite run_bind, IH. by destruct (result_map f l).
Qed.

Lemma stamp_arxiv_stamped loaded :
  stamped_from "arxiv" "ArXiv"
    (from_option id (JStr "") (metadata loaded !! "Entry ID"))
    (stamp_arxiv loaded) loaded.
Proof.
  unfold stamped_from, stamp_arxiv. simpl.
  split; [done|]. split; [by simplify_map_eq|]. split; [by simplify_map_eq|].
  split.
  - rewrite lookup_insert_eq. f_equal.
    rewrite !lookup_insert_ne by done.
    destruct (metadata loaded !! "Entry ID") as [v|]; simpl; [|done].
    by destruct (truthy v).
  - intros key H1 H2 H3. by rewrite !lookup_insert_ne.
Qed.

(** X4. When its package is installed and the loader answers, [search_arxiv]
    returns the loaded documents in the loader's order, one for one: the
    content and every metadata key are kept, except that "source" is set to
    "arxiv", "source_name" to "ArXiv" and "url" to the value of "Entry ID",
    or to the empty string when the loader gave none. *)
Theorem search_arxiv_stamps w query max_results st loaded :
  importable w "langchain_community.document_loaders" = true →
  arxiv_answer w query max_results = Ok loaded →
  ∃ docs,
    search_arxiv w query max_results st
    = (logged st [ArxivLoad query max_results], Ok docs)
    ∧ Forall2 (λ doc l,
                 stamped_from "arxiv" "ArXiv"
                   (from_option id (JStr "") (metadata l !! "Entry ID")) doc l)
        docs loaded.
Proof.
  intros Himp Hload. exists (stamp_arxiv <$> loaded). split.
  - unfold search_arxiv, try_except, search_arxiv_try.
    rewrite run_bind. unfold import_ at 1. rewrite Himp. simpl.
    rewrite run_bind. unfold ArxivLoader_load. rewrite run_bind, run_emit.
    unfold lift. by rewrite Hload.
  - apply Forall2_fmap_l, Forall_Forall2_diag, Forall_forall.
    intros l _. apply stamp_arxiv_stamped.
Qed.

Lemma prefix_append (p s : string) : String.prefix p (p +:+ s) = true.
Proof.
  induction p as [|c p IH]; [by destruct s|].
  rewrite append_cons. simpl. by destruct (ascii_dec c c).
Qed.

Lemma s2_document_shape w item doc :
  s2_document w item = Ok doc → semantic_scholar_document doc.
Proof.
  unfold s2_document. intros H.
  repeat match type of H with
         | (?r ≫= _) = _ => destruct r; simpl in H; [|done]
         end.
  injection H as <-. unfold semantic_scholar_document. simpl.
  split; [by simplify_map_eq|]. split; [by simplify_map_eq|].
  split; [|apply prefix_append].
  rewrite !dom_insert_L, dom_empty_L. set_solver.
Qed.

Lemma list_slice_to_length {A} (n : Z) (l : list A) :
  0 ≤ n → (length (list_slice_to n l) ≤ Z.to_nat n)%nat.
Proof.
  intros Hn. unfold list_slice_to.
  rewrite (proj2 (Z.ltb_ge n 0)) by done. rewrite length_take. lia.
Qed.

Lemma slice_items_length v n items :
  0 ≤ n → slice_items v n = Ok items → (length items ≤ Z.to_nat n)%nat.
Proof.
  intros Hn. destruct v; simpl; try done; intros [= <-];
    by apply list_slice_to_length.
Qed.

(** What [search_semantic_scholar] returns: nothing, or one document for
    each of the first items of the answer. *)
Lemma search_semantic_scholar_result w query n st docs :
  (search_semantic_scholar w query n st).2 = Ok docs →
  docs = []
  ∨ ∃ listed items,
      slice_items listed n = Ok items
      ∧ result_map (s2_document w) items = Ok docs.
Proof.
  unfold search_semantic_scholar, try_except, search_semantic_scholar_try.
  rewrite run_bind. unfold import_ at 1.
  destruct (importable w "requests"); simpl; [|intros [= <-]; by left].
  rewrite run_bind. unfold requests_get. rewrite run_bind, run_emit.
  unfold lift at 1.
  destruct (http_answer w _ _ _ _) as [r|e]; simpl; [|intros [= <-]; by left].
  destruct (negb (status_code r =? 200)); simpl; [intros [= <-]; by left|].
  rewrite run_bind. unfold lift at 1.
  destruct (json_body r) as [data|e]; simpl; [|intros [= <-]; by left].
  rewrite run_bind. unfold lift at 1.
  destruct (py_in "data" data) as [[|]|e]; simpl;
    [|intros [= <-]; by left..].
  rewrite run_bind. unfold lift at 1.
  destruct (getitem data "data") as [listed|e]; simpl; [|intros [= <-]; by left].
  rewrite run_bind. unfold lift at 1.
  destruct (slice_items listed n) as [items|e] eqn:Hitems; simpl;
    [|intros [= <-]; by left].
  rewrite for_each_lift.
  destruct (result_map (s2_document w) items) as [found|e] eqn:Hfound; simpl;
    [|intros [= <-]; by left].
  intros [= <-]. right. by exists listed, items.
Qed.

(** X5. Every document [search_semantic_scholar] returns carries the
    source "semantic_scholar", the source name "Semantic Scholar", exactly
    the seven metadata keys of the adapter and a content that starts with
    the title line; and for a limit that is not negative it returns at most
    that many documents. *)
Theorem search_semantic_scholar_bounded w query max_results st docs :
  (search_semantic_scholar w query max_results st).2 = Ok docs →
  Forall semantic_scholar_document docs
  ∧ (0 ≤ max_results → (length docs ≤ Z.to_nat max_results)%nat).
Proof.
  intros Hrun.
  apply search_semantic_scholar_result in Hrun
    as [-> | (listed & items & Hitems & Hdocs)].
  { split; [constructor|simpl; lia]. }
  split.
  - eapply result_map_Forall; [|exact Hdocs]. apply s2_document_shape.
  - intros Hn. rewrite (result_map_length _ _ _ Hdocs).
    by eapply slice_items_length.
Qed.


Lemma never_raises_for_each {A B} (body : A → M B) l :
  (∀ x, never_raises (body x)) → never_raises (for_each body l).
Proof.
  intros Hb. induction l as [|x l IH]; intros st; simpl; [by eexists|].
  rewrite run_bind. destruct (Hb x st) as (y & Hy).
  destruct (body x st) as [st1 [y'|e]]; simpl in Hy; [|done].
  rewrite run_bind. destruct (IH st1) as (ys & Hys).
  destruct (for_each body l st1) as [st2 [ys'|e]]; simpl in Hys; [|done].
  by eexists.
Qed.

Lemma search_one_source_total w query n source :
  never_raises (search_one_source w query n source).
Proof.
  intros st. unfold search_one_source.
  destruct (source_functions _) as [f|]; [|by eexists].
  rewrite run_bind. simpl. rewrite run_bind.
  match goal with |- context [call_adapter w f query n ?s] =>
    destruct (call_adapter_total w f query n s) as (docs & Hdocs);
    destruct (call_adapter w f query n s) as [st1 [docs'|e]] end;
    simpl in Hdocs; [|done].
  by eexists.
Qed.

Lemma search_all_sources_total w query sources n :
  never_raises (search_all_sources w query sources n).
Proof.
  intros st. unfold search_all_sources. rewrite run_bind.
  destruct (never_raises_for_each (search_one_source w query n) sources
              (search_one_source_total w query n) st) as (found & Hfound).
  destruct (for_each _ sources st) as [st1 [found'|e]]; simpl in Hfound; [|done].
  by eexists.
Qed.


Lemma enrich_document_enriched w doc enriched :
  enrich_document w doc = Ok enriched → enriched_from doc enriched.
Proof.
  unfold enrich_document. destruct (upper_value _) as [up|e]; [|done].
  cbv beta iota zeta. unfold mbind, result_bind.
  generalize (py_str w (default (JStr up) (metadata doc !! "source_name"))).
  generalize (py_str w (default (JStr "") (metadata doc !! "Title"))).
  generalize (py_str w (default (JStr "") (metadata doc !! "Published"))).
  generalize (py_str w (default (JStr "") (metadata doc !! "url"))).
  intros url date title source_name [= <-]. split; [done|].
  exists ("FONTE: " +:+ source_name +:+ nl +:+ "TÍTULO: " +:+ title +:+ nl
          +:+ "DATA: " +:+ date +:+ nl +:+ "LINK: " +:+ url +:+ nl).
  split; [|apply prefix_append].
  cbn [page_content]. by rewrite !append_assoc.
Qed.

(** X7. [enrich_documents] is a one-to-one transform: when it returns, it
    returns as many documents as it was given, in the same order, each with
    the metadata of its original and with the original content kept whole
    after a header that starts with the source line; the state is left as it
    was. *)
Theorem enrich_documents_one_to_one w docs st st' enriched :
  enrich_documents w docs st = (st', Ok enriched) →
  st' = st ∧ length enriched = length docs ∧ Forall2 enriched_from docs enriched.
Proof.
  unfold enrich_documents, lift. intros [= <- Hmap].
  split; [done|]. split; [by eapply result_map_length|].
  eapply Forall2_impl; [by apply result_map_Forall2|].
  intros doc e. apply enrich_document_enriched.
Qed.

Lemma enrich_document_ok w doc :
  (∃ enriched, enrich_document w doc = Ok enriched) ↔ source_is_text doc.
Proof.
  unfold enrich_document, source_is_text.
  destruct (metadata doc !! "source") as [[]|]; simpl; split;
    try done; try (intros _; by eexists); by intros [? ?].
Qed.

Lemma result_map_ok {A B} (f : A → result B) l :
  (∃ l', result_map f l = Ok l') ↔ Forall (λ x, ∃ y, f x = Ok y) l.
Proof.
  induction l as [|x l IH]; simpl.
  - split; [constructor|by eexists].
  - split.
    + intros (l' & H). destruct (f x) as [y|e] eqn:Hy; simpl in H; [|done].
      destruct (result_map f l) as [ys|e] eqn:Hys; simpl in H; [|done].
      constructor; [by eexists|]. apply IH. by eexists.
    + intros [(y & Hy) (ys & Hys)%IH]%Forall_cons. rewrite Hy, Hys. by eexists.
Qed.

(** X8. [enrich_documents] returns exactly when the "source" entry of the
    metadata of every document is absent or a [str]; otherwise it raises an
    [AttributeError], since it calls [upper] on that entry. *)
Theorem enrich_documents_needs_text_source w docs st :
  ((∃ enriched, (enrich_documents w docs st).2 = Ok enriched)
   ↔ Forall source_is_text docs)
  ∧ (∀ e, (enrich_documents w docs st).2 = Err e → class_of e = AttributeError).
Proof.
  unfold enrich_documents, lift. simpl. split.
  - rewrite result_map_ok. apply Forall_iff. intros doc.
    apply enrich_document_ok.
  - induction docs as [|doc docs IH]; simpl; [done|].
    intros e. destruct (enrich_document w doc) as [d|e0] eqn:Hd; simpl.
    + destruct (result_map _ docs) as [ys|e1]; simpl; [done|].
      intros [= <-]. by apply IH.
    + intros [= <-]. unfold enrich_document, upper_value in Hd.
      destruct (metadata doc !! "source") as [[]|]; simpl in Hd;
        try done; by injection Hd as <-.
Qed.

Lemma get_embeddings_constructor_failure_witness :
  get_embeddings ollama_down initial_state
  = (initial_state,
     Err (if an_ImportError (Raised Exception "Connection refused")
          then community_not_installed
          else ollama_failure ollama_down (Raised Exception "Connection refused"))).
Proof.
  apply (proj2 (proj2 (get_embeddings_constructor_failure ollama_down
                         initial_state (Raised Exception "Connection refused"))));
    reflexivity.
Defined.

Lemma search_arxiv_stamps_witness :
  ∃ docs,
    search_arxiv calm "rag" 5 initial_state
    = (logged initial_state [ArxivLoad "rag" 5], Ok docs)
    ∧ Forall2 (λ doc l,
                 stamped_from "arxiv" "ArXiv"
                   (from_option id (JStr "") (metadata l !! "Entry ID")) doc l)
        docs [paper].
Proof.
  apply (search_arxiv_stamps calm "rag" 5 initial_state [paper]); reflexivity.
Defined.

Lemma search_semantic_scholar_bounded_witness :
  ∃ docs,
    (search_semantic_scholar two_listed "rag" 1 initial_state).2 = Ok docs
    ∧ length docs = 1%nat
    ∧ Forall semantic_scholar_document docs
    ∧ (0 ≤ 1 → (length docs ≤ Z.to_nat 1)%nat).
Proof.
  eexists. split; [vm_compute; reflexivity|]. split; [reflexivity|].
  apply (search_semantic_scholar_bounded two_listed "rag" 1 initial_state).
  vm_compute. reflexivity.
Defined.


Lemma enrich_documents_one_to_one_witness :
  ∃ enriched,
    enrich_documents calm [paper] initial_state = (initial_state, Ok enriched)
    ∧ initial_state = initial_state
    ∧ length enriched = length [paper]
    ∧ Forall2 enriched_from [paper] enriched.
Proof.
  eexists. split; [reflexivity|].
  apply (enrich_documents_one_to_one calm [paper] initial_state). reflexivity.
Defined.

Lemma enrich_documents_needs_text_source_witness :
  ∃ e,
    (enrich_documents calm [paper; numbered_source] initial_state).2 = Err e
    ∧ class_of e = AttributeError.
Proof.
  eexists. split; [vm_compute; reflexivity|].
  apply (proj2 (enrich_documents_needs_text_source calm [paper; numbered_source]
                  initial_state)).
  vm_compute. reflexivity.
Defined.

Lemma for_each_Forall {A B} (body : A → M (list B)) (P : B → Prop) l st found :
  (∀ x st0 ys, (body x st0).2 = Ok ys → Forall P ys) →
  (for_each body l st).2 = Ok found → Forall P (concat found).
Proof.
  intros Hb. revert st found. induction l as [|x l IH]; intros st found; simpl.
  - intros [= <-]. constructor.
  - rewrite run_bind. pose proof (Hb x st) as Hx.
    destruct (body x st) as [st1 [ys|e]]; simpl in *; [|done].
    rewrite run_bind. pose proof (IH st1) as Hl.
    destruct (for_each body l st1) as [st2 [yss|e]]; simpl in *; [|done].
    intros [= <-]. simpl. apply Forall_app. split; [by apply Hx|by apply Hl].
Qed.

Lemma search_arxiv_from_an_adapter w query n st docs :
  (search_arxiv w query n st).2 = Ok docs → Forall from_an_adapter docs.
Proof.
  unfold search_arxiv, try_except, search_arxiv_try.
  rewrite run_bind. unfold import_ at 1.
  destruct (importable w _); simpl; [|intros [= <-]; constructor].
  rewrite run_bind. unfold ArxivLoader_load. rewrite run_bind, run_emit.
  unfold lift.
  destruct (arxiv_answer w query n) as [loaded|e]; simpl;
    [|intros [= <-]; constructor].
  intros [= <-]. apply Forall_fmap, Forall_forall. intros l _.
  left. pose proof (stamp_arxiv_stamped l) as (_ & Hs & Hn & _). by split.
Qed.

Lemma search_semantic_scholar_from_an_adapter w query n st docs :
  (search_semantic_scholar w query n st).2 = Ok docs →
  Forall from_an_adapter docs.
Proof.
  intros Hrun.
  apply search_semantic_scholar_result in Hrun
    as [-> | (listed & items & _ & Hdocs)]; [constructor|].
  eapply result_map_Forall; [|exact Hdocs].
  intros item doc (Hs & Hn & _)%s2_document_shape. by right.
Qed.

Lemma search_one_source_from_an_adapter w query n source st docs :
  (search_one_source w query n source st).2 = Ok docs →
  Forall from_an_adapter docs.
Proof.
  unfold search_one_source.
  destruct (source_functions _) as [f|]; [|intros [= <-]; constructor].
  rewrite run_bind. simpl. rewrite run_bind.
  match goal with |- context [call_adapter w f query n ?s] =>
    pose proof (λ ds, match f return (call_adapter w f query n s).2 = Ok ds → _ with
                      | Arxiv => search_arxiv_from_an_adapter w query n s ds
                      | SemanticScholar =>
                          search_semantic_scholar_from_an_adapter w query n s ds
                      end) as Hf;
    destruct (call_adapter w f query n s) as [st1 [found|e]] end;
    simpl in *; [|done].
  intros [= <-]. by apply Hf.
Qed.

Lemma search_all_sources_from_an_adapter w query sources n st docs :
  (search_all_sources w query sources n st).2 = Ok docs →
  Forall from_an_adapter docs.
Proof.
  unfold search_all_sources. rewrite run_bind.
  destruct (for_each _ sources st) as [st1 [found|e]] eqn:Hfound; simpl; [|done].
  intros [= <-].
  eapply (for_each_Forall _ _ sources st);
    [apply search_one_source_from_an_adapter|by rewrite Hfound].
Qed.

Lemma enrich_document_from_an_adapter w doc :
  from_an_adapter doc →
  ∃ enriched, enrich_document w doc = Ok enriched ∧ names_its_source enriched.
Proof.
  unfold enrich_document.
  intros [[Hs Hn] | [Hs Hn]]; rewrite Hs, Hn; simpl;
    (eexists; split; [reflexivity|]); [left|right]; by eexists.
Qed.

(** X9. The aggregator and the enricher compose: [enrich_documents] never
    raises on the documents [search_all_sources] returns, whatever the
    sources answered; it returns one enriched document for each, and the
    content of each starts with the line "FONTE: ArXiv" or
    "FONTE: Semantic Scholar". *)
Theorem aggregated_documents_enrich w query sources n st st' docs :
  search_all_sources w query sources n st = (st', Ok docs) →
  ∃ enriched,
    enrich_documents w docs st' = (st', Ok enriched)
    ∧ length enriched = length docs
    ∧ Forall names_its_source enriched.
Proof.
  intros Hrun.
  assert (Forall from_an_adapter docs) as Hdocs.
  { apply (search_all_sources_from_an_adapter w query sources n st).
    by rewrite Hrun. }
  clear Hrun. unfold enrich_documents, lift.
  induction Hdocs as [|doc docs Hdoc _ (enriched & Hrest & Hlen & Hall)].
  { exists []. by repeat split. }
  destruct (enrich_document_from_an_adapter w doc Hdoc) as (e & He & Hname).
  injection Hrest as Hrest.
  exists (e :: enriched). simpl. rewrite He, Hrest. simpl.
  split; [done|]. split; [by rewrite Hlen|]. by constructor.
Qed.

Lemma aggregated_documents_enrich_witness :
  ∃ st' docs enriched,
    search_all_sources calm "rag" ["arxiv"; "pubmed"] 5 initial_state
    = (st', Ok docs)
    ∧ length docs = 1%nat
    ∧ enrich_documents calm docs st' = (st', Ok enriched)
    ∧ length enriched = length docs
    ∧ Forall names_its_source enriched.
Proof.
  destruct (aggregated_documents_enrich calm "rag" ["arxiv"; "pubmed"] 5
              initial_state _ _ eq_refl) as (enriched & Henriched).
  eexists _, _, enriched. split; [reflexivity|]. split; [reflexivity|].
  exact Henriched.
Defined.

(** ** The embedding loop, whatever the provider answers *)

Lemma loop_insufficient w provider embeddings docs st attempt rest e :
  embed_fault w (embedder_of st embeddings) attempt (page_content <$> docs) = Some e →
  classify w provider e = OpenAIInsufficientQuota →
  for_loop (attempt_body w provider embeddings docs) (attempt :: rest) st
  = (logged st [EmbedDocuments (embedder_of st embeddings) (page_content <$> docs)],
     Ok (Some (exhausted_message w provider e))).
Proof.
  intros Hfault Hkind. simpl. rewrite run_bind.
  unfold attempt_body at 1, try_except.
  rewrite (run_create_or_update_fault _ _ _ _ _ _ Hfault). simpl.
  by rewrite handler_insufficient_quota.
Qed.

Lemma classify_dec w provider e :
  {classify w provider e = OpenAIInsufficientQuota}
  + {classify w provider e ≠ OpenAIInsufficientQuota}.
Proof. destruct (classify w provider e); (by left) || by right. Qed.

(** Every run of the embedding loop: it returns, having made one to three
    requests; it ingested the fragments when it returns nothing, and left
    the index alone when it returns a message. *)
Lemma vectorize_outcome w provider embeddings docs st :
  ∃ evs returned st',
    vectorize w provider embeddings docs st = (st', Ok returned)
    ∧ trace st' = trace st ++ evs
    ∧ within_budget
        (EmbedDocuments (embedder_of st embeddings) (page_content <$> docs)) evs
    ∧ match returned with
      | None => vector_db st' = Some (ingested w st embeddings docs)
      | Some message =>
          vector_db st' = vector_db st
          ∧ ∃ e, message = exhausted_message w provider e
      end.
Proof.
  unfold within_budget.
  destruct (embed_fault w (embedder_of st embeddings) 0 (page_content <$> docs))
    as [e0|] eqn:H0.
  2: { rewrite (no_failure w provider embeddings docs st H0).
       eexists _, None, _. split; [reflexivity|]. simpl. split; [done|].
       split; [by left|done]. }
  destruct (classify_dec w provider e0) as [K0|K0].
  { rewrite vectorize_unfold, (loop_insufficient _ _ _ _ _ _ _ _ H0 K0).
    eexists _, (Some _), _. split; [reflexivity|]. simpl. split; [done|].
    split; [by left|]. split; [done|by eexists]. }
  destruct (embed_fault w (embedder_of st embeddings) 1 (page_content <$> docs))
    as [e1|] eqn:H1.
  2: { destruct (one_failure w provider embeddings docs st e0 H0 H1 K0)
         as (evs & -> & Hevs).
       eexists evs, None, _. split; [reflexivity|]. simpl. split; [done|].
       split; [right; by left|done]. }
  destruct (classify_dec w provider e1) as [K1|K1].
  { rewrite vectorize_unfold.
    destruct (loop_retries w provider embeddings docs st 0 [1; 2] e0)
      as (line0 & ->); [done..|].
    rewrite (loop_insufficient w provider embeddings docs _ 1 [2] e1); [|done..].
    rewrite logged_logged.
    eexists _, (Some _), _. split; [reflexivity|]. simpl. split; [done|].
    split; [right; by left|]. split; [done|by eexists]. }
  destruct (embed_fault w (embedder_of st embeddings) 2 (page_content <$> docs))
    as [e2|] eqn:H2.
  - destruct (three_failures w provider embeddings docs st e0 e1 e2 H0 H1 H2 K0 K1)
      as (evs & -> & Hevs).
    eexists evs, (Some _), _. split; [reflexivity|]. simpl. split; [done|].
    split; [right; by right|]. split; [done|by eexists].
  - destruct (two_failures w provider embeddings docs st e0 e1 H0 H1 H2 K0 K1)
      as (evs & -> & Hevs).
    eexists evs, None, _. split; [reflexivity|]. simpl. split; [done|].
    split; [right; by right|done].
Qed.

(** X10. An OpenAI [APIError] that is not a rate-limit error and whose text
    has "insufficient_quota" is the one embedding failure that is not
    retried: with the provider "openai" and the [openai] package installed,
    the loop makes the one request, does not sleep, leaves the index as it
    was and returns the insufficient-quota message. *)
Theorem insufficient_quota_is_not_retried w embeddings docs st e :
  importable w "openai" = true →
  embed_fault w (embedder_of st embeddings) 0 (page_content <$> docs) = Some e →
  isinstance e RateLimitError = false →
  isinstance e APIError = true →
  contains "insufficient_quota" (lower (str e)) = true →
  vectorize w "openai" embeddings docs st
  = (logged st [EmbedDocuments (embedder_of st embeddings) (page_content <$> docs)],
     Ok (Some insufficient_quota_message)).
Proof.
  intros Himp Hfault Hrate Hapi Htext.
  assert (classify w "openai" e = OpenAIInsufficientQuota) as Hkind.
  { unfold classify. rewrite Himp, Hrate, Hapi, Htext. reflexivity. }
  rewrite vectorize_unfold, (loop_insufficient _ _ _ _ _ _ _ _ Hfault Hkind).
  unfold exhausted_message. by rewrite Hkind.
Qed.

Lemma insufficient_quota_is_not_retried_witness :
  vectorize out_of_credit "openai" (OpenAIEmbeddings "text-embedding-3-small")
    [paper] initial_state
  = (logged initial_state
       [EmbedDocuments
          (embedder_of initial_state (OpenAIEmbeddings "text-embedding-3-small"))
          (page_content <$> [paper])],
     Ok (Some insufficient_quota_message)).
Proof.
  apply (insufficient_quota_is_not_retried out_of_credit
           (OpenAIEmbeddings "text-embedding-3-small") [paper] initial_state
           (Raised APIError "Error code: 429 - insufficient_quota"));
    reflexivity.
Defined.

(** X11. Whatever the embedding provider answers, the embedding loop
    returns without raising after one, two or three requests of the same
    texts to the same model, having slept 2 seconds after the first failed
    request and 4 after the second and never after the last; it has ingested
    the fragments when it returns nothing, and has left the index as it was
    when it returns a message. *)
Theorem embedding_loop_budget w provider embeddings docs st :
  ∃ evs returned st',
    vectorize w provider embeddings docs st = (st', Ok returned)
    ∧ trace st' = trace st ++ evs
    ∧ within_budget
        (EmbedDocuments (embedder_of st embeddings) (page_content <$> docs)) evs
    ∧ (1 ≤ attempts evs ≤ 3)%nat
    ∧ sleeps evs = take (attempts evs - 1) [2; 4]
    ∧ match returned with
      | None => vector_db st' = Some (ingested w st embeddings docs)
      | Some _ => vector_db st' = vector_db st
      end.
Proof.
  destruct (vectorize_outcome w provider embeddings docs st)
    as (evs & returned & st' & Hrun & Htrace & Hbudget & Hdb).
  exists evs, returned, st'. repeat (split; [done|]).
  rewrite attempts_effects, sleeps_effects.
  split; [|split].
  - destruct Hbudget as [-> | [-> | ->]]; unfold attempts; simpl; lia.
  - by destruct Hbudget as [-> | [-> | ->]].
  - destruct returned; [by destruct Hdb|done].
Qed.

(** ** The ingestion as a whole *)

Lemma emits_call_adapter_quiet w f query n :
  emits before_the_loop (call_adapter w f query n).
Proof.
  destruct f; simpl;
    unfold search_arxiv, search_arxiv_try, ArxivLoader_load,
      search_semantic_scholar, search_semantic_scholar_try, requests_get;
    repeat emits_step.
Qed.

Lemma emits_search_all_sources_quiet w query sources n :
  emits before_the_loop (search_all_sources w query sources n).
Proof.
  unfold search_all_sources, search_one_source.
  repeat first [apply emits_call_adapter_quiet | emits_step].
Qed.

(** The stages of the [try] block of [update_knowledge_base]: it stops after
    the search when nothing was found, at the embedding model when that
    cannot be built, or goes through the embedding loop. *)
Lemma update_try_outcomes w tema max_papers sources st st' r :
  update_knowledge_base_try w tema max_papers sources st = (st', r) →
  ∃ st1 evs1,
    vector_db st1 = vector_db st
    ∧ trace st1 = trace st ++ evs1
    ∧ Forall before_the_loop evs1
    ∧ ((st' = st1 ∧ r = Ok (nothing_found_message sources))
       ∨ ∃ enriched line,
           enriched ≠ []
           ∧ let st2 :=
               logged st1
                 [Print line;
                  Print ("🧠 [SERVER] Using embeddings: "
                         +:+ upper (announced_provider w))] in
             ((∃ e, get_embeddings w st2 = (st2, Err e) ∧ st' = st2 ∧ r = Err e)
              ∨ ∃ emb returned line',
                  get_embeddings w st2 = (st2, Ok emb)
                  ∧ vectorize w (announced_provider w) emb (fragments_of enriched)
                      (logged st2 [Print line']) = (st', Ok returned)
                  ∧ r = Ok (match returned with
                            | Some message => message
                            | None => success_message (length enriched)
                            end))).
Proof.
  unfold update_knowledge_base_try. fold (source_ids sources).
  fold (announced_provider w).
  rewrite run_bind. unfold lift at 1. rewrite floordiv_source_ids.
  rewrite run_bind. unfold print at 1, emit at 1.
  rewrite run_bind. unfold print at 1, emit at 1.
  rewrite run_bind.
  match goal with |- context [search_all_sources w tema ?l ?n ?s] =>
    pose proof (keeps_db_search_all_sources w tema l n s) as Hdb1;
    destruct (emits_search_all_sources_quiet w tema l n s) as (evs & Htr & Hevs);
    pose proof (search_all_sources_from_an_adapter w tema l n s) as Hfrom;
    destruct (search_all_sources_total w tema l n s) as (raw' & Hraw);
    destruct (search_all_sources w tema l n s) as [st1 [raw|e]] end;
    simpl in Hdb1, Htr, Hraw; [|done].
  specialize (Hfrom raw eq_refl). clear raw' Hraw.
  intros Hout. exists st1. eexists (_ :: _ :: evs).
  split; [done|]. split; [by rewrite Htr; simpl; rewrite <- !app_assoc|].
  split; [by repeat constructor|].
  destruct raw as [|doc raw]; [injection Hout as <- <-; by left|].
  rewrite run_bind in Hout. unfold enrich_documents, lift at 1 in Hout.
  destruct (result_map (enrich_document w) (doc :: raw)) as [enriched|e] eqn:Henrich.
  2: { exfalso. clear -Hfrom Henrich.
       assert (∃ l', result_map (enrich_document w) (doc :: raw) = Ok l')
         as (l' & Hl'); [|by rewrite Hl' in Henrich].
       apply result_map_ok. eapply Forall_impl; [exact Hfrom|].
       intros d Hd. destruct (enrich_document_from_an_adapter w d Hd) as (x & ? & _).
       by exists x. }
  rewrite run_bind in Hout. unfold print at 1 in Hout. rewrite run_emit in Hout.
  rewrite run_bind in Hout. unfold lift at 1 in Hout.
  change (RecursiveCharacterTextSplitter 1000 100)
    with (Ok {| chunk_size := 1000; chunk_overlap := 100 |}) in Hout.
  cbv beta iota in Hout. fold (fragments_of enriched) in Hout.
  rewrite run_bind in Hout. unfold print at 1 in Hout. rewrite run_emit in Hout.
  rewrite run_bind in Hout. rewrite !logged_logged in Hout. right.
  eexists enriched, _. split.
  { apply result_map_length in Henrich. by destruct enriched. }
  cbv zeta.
  match type of Hout with context [get_embeddings w ?s] =>
    pose proof (silent_get_embeddings w s) as Hsilent;
    destruct (get_embeddings w s) as [st2 [emb|e]] eqn:Hemb end;
    simpl in Hsilent; subst st2.
  2: { left. exists e. injection Hout as <- <-. split; [exact Hemb|done]. }
  right. rewrite run_bind in Hout. unfold print at 1 in Hout.
  rewrite run_emit in Hout. rewrite run_bind in Hout.
  match type of Hout with context [vectorize w ?p ?e ?d ?s] =>
    destruct (vectorize_outcome w p e d s) as (evs3 & returned & st3 & Hrun & _) end.
  rewrite Hrun in Hout.
  exists emb, returned. eexists. split; [exact Hemb|].
  destruct returned; injection Hout as <- <-; (split; [exact Hrun|done]).
Qed.







(** ** The query *)




(** X15. [search_semantic_scholar] converts all of the listed items or
    none: when the answer has status 200 and lists items under "data", the
    adapter returns the documents of the first [max_results] items, in the
    order listed, if every one of them converts; if one of them does not,
    it prints the error of the first that fails and returns no document at
    all, the converted ones included. *)
Theorem semantic_scholar_all_or_nothing w query max_results st r fields listed :
  importable w "requests" = true →
  http_answer w s2_url (s2_params query max_results) (s2_headers w) 10 = Ok r →
  status_code r = 200 →
  json_body r = Ok (JObj fields) →
  fields !! "data" = Some (JArr listed) →
  search_semantic_scholar w query max_results st
  = match result_map (s2_document w) (list_slice_to max_results listed) with
    | Ok docs =>
        (logged st [HttpGet s2_url (s2_params query max_results) (s2_headers w) 10],
         Ok docs)
    | Err e =>
        (logged st [HttpGet s2_url (s2_params query max_results) (s2_headers w) 10;
                    Print ("⚠️  Erro ao buscar Semantic Scholar: " +:+ str e)],
         Ok [])
    end.
Proof.
  intros Himp Hanswer Hstatus Hbody Hdata.
  unfold search_semantic_scholar, try_except, search_semantic_scholar_try.
  rewrite run_bind. unfold import_ at 1. rewrite Himp. simpl.
  rewrite run_bind. unfold requests_get. rewrite run_bind, run_emit.
  unfold lift at 1. rewrite Hanswer. cbv beta iota.
  rewrite Hstatus. simpl.
  rewrite run_bind. unfold lift at 1. rewrite Hbody. cbv beta iota.
  rewrite run_bind. unfold lift at 1, py_in. rewrite Hdata.
  rewrite bool_decide_eq_true_2 by by eexists. cbv beta iota.
  rewrite run_bind. unfold lift at 1, getitem. rewrite Hdata. cbv beta iota.
  rewrite run_bind. unfold lift at 1, slice_items. cbv beta iota.
  rewrite for_each_lift.
  destruct (result_map (s2_document w) (list_slice_to max_results listed))
    as [docs|e]; simpl; [done|].
  rewrite run_bind. unfold print. rewrite run_emit. by rewrite logged_logged.
Qed.

Lemma semantic_scholar_all_or_nothing_witness :
  search_semantic_scholar one_malformed "rag" 5 initial_state
  = (logged initial_state
       [HttpGet s2_url (s2_params "rag" 5) (s2_headers one_malformed) 10;
        Print ("⚠️  Erro ao buscar Semantic Scholar: "
               +:+ "'int' object has no attribute 'get'")],
     Ok []).
Proof.
  etransitivity.
  - apply (semantic_scholar_all_or_nothing one_malformed "rag" 5 initial_state
             {| status_code := 200;
                json_body :=
                  Ok (JObj {["data" :=
                        JArr [JObj {["title" := JStr "Attention"]}; JNum 7]]}) |}
             {["data" := JArr [JObj {["title" := JStr "Attention"]}; JNum 7]]}
             [JObj {["title" := JStr "Attention"]}; JNum 7]);
      reflexivity.
  - vm_compute. reflexivity.
Defined.

(** ** Non-transient embedding failures *)

Lemma stateless_ret {A} (a : A) : stateless (mret a).
Proof. by eexists. Qed.

Lemma stateless_raise {A} e : stateless (@raise A e).
Proof. by eexists. Qed.

Lemma stateless_import w module : stateless (import_ w module).
Proof. unfold import_. destruct (importable w module); by eexists. Qed.

Lemma stateless_bind {A B} (m : M A) (f : A → M B) :
  stateless m → (∀ a, stateless (f a)) → stateless (m ≫= f).
Proof.
  intros [[a|e] Hm] Hf.
  - destruct (Hf a) as [r Hr]. exists r. intros st. by rewrite run_bind, Hm, Hr.
  - exists (Err e). intros st. by rewrite run_bind, Hm.
Qed.

Lemma stateless_try_except {A} (body : M A) catches handler :
  stateless body → (∀ e, stateless (handler e)) →
  stateless (try_except body catches handler).
Proof.
  intros [[a|e] Hm] Hh; unfold try_except.
  - exists (Ok a). intros st. by rewrite Hm.
  - destruct (catches e) eqn:Hc.
    + destruct (Hh e) as [r Hr]. exists r. intros st. by rewrite Hm, Hc, Hr.
    + exists (Err e). intros st. by rewrite Hm, Hc.
Qed.

Lemma stateless_try_except2 {A} (body : M A) c1 h1 c2 h2 :
  stateless body → (∀ e, stateless (h1 e)) → (∀ e, stateless (h2 e)) →
  stateless (try_except2 body c1 h1 c2 h2).
Proof.
  intros [[a|e] Hm] H1 H2; unfold try_except2.
  - exists (Ok a). intros st. by rewrite Hm.
  - destruct (c1 e) eqn:Hc1.
    + destruct (H1 e) as [r Hr]. exists r. intros st. by rewrite Hm, Hc1, Hr.
    + destruct (c2 e) eqn:Hc2.
      * destruct (H2 e) as [r Hr]. exists r. intros st. by rewrite Hm, Hc1, Hc2, Hr.
      * exists (Err e). intros st. by rewrite Hm, Hc1, Hc2.
Qed.

Ltac stateless_step :=
  lazymatch goal with
  | |- stateless (mret _) => apply stateless_ret
  | |- stateless (raise _) => apply stateless_raise
  | |- stateless (import_ _ _) => apply stateless_import
  | |- stateless (_ ≫= _) => apply stateless_bind; [|intros ?]
  | |- stateless (try_except _ _ _) => apply stateless_try_except; [|intros ?]
  | |- stateless (try_except2 _ _ _ _ _) =>
      apply stateless_try_except2; [|intros ?|intros ?]
  | |- stateless (if ?b then _ else _) => destruct b
  | |- stateless (match ?x with _ => _ end) => destruct x
  end.

(** What [get_embeddings] returns or raises is the world's: the state of the
    process has no part in it. *)
Lemma stateless_get_embeddings w : stateless (get_embeddings w).
Proof. unfold get_embeddings, construct. repeat stateless_step. Qed.

Lemma get_embeddings_anywhere w st st0 r :
  get_embeddings w st0 = (st0, r) → (get_embeddings w st).2 = r.
Proof.
  destruct (stateless_get_embeddings w) as [r' Hr]. rewrite !Hr.
  by intros [= <-].
Qed.

Lemma attempts_app evs1 evs2 :
  attempts (evs1 ++ evs2) = (attempts evs1 + attempts evs2)%nat.
Proof. unfold attempts. by rewrite List.filter_app, length_app. Qed.

Lemma sleeps_app evs1 evs2 : sleeps (evs1 ++ evs2) = sleeps evs1 ++ sleeps evs2.
Proof. unfold sleeps. apply omap_app. Qed.

Lemma before_the_loop_quiet evs :
  Forall before_the_loop evs → attempts evs = 0%nat ∧ sleeps evs = [].
Proof.
  induction 1 as [|ev evs [Hemb Hsleep] _ [IH1 IH2]]; [done|].
  change (ev :: evs) with ([ev] ++ evs).
  rewrite attempts_app, sleeps_app, IH1, IH2, Hsleep.
  unfold attempts. simpl. by rewrite Hemb.
Qed.

(** One call of [update_knowledge_base], with the embedding requests and the
    sleeps it made: none when nothing was found or the embedding model could
    not be built, those of the embedding loop otherwise. *)
Lemma update_accounting w tema max_papers sources st st' r :
  update_knowledge_base w tema max_papers sources st = (st', r) →
  ∃ evs,
    trace st' = trace st ++ evs
    ∧ ((r = Ok (nothing_found_message sources) ∧ vector_db st' = vector_db st
        ∧ attempts evs = 0%nat ∧ sleeps evs = [])
       ∨ (∃ e,
            (get_embeddings w st).2 = Err e ∧ r = Ok (processing_error e)
            ∧ vector_db st' = vector_db st
            ∧ attempts evs = 0%nat ∧ sleeps evs = [])
       ∨ (∃ embeddings enriched st3 evs3 returned,
            (get_embeddings w st).2 = Ok embeddings ∧ enriched ≠ []
            ∧ vector_db st3 = vector_db st
            ∧ vectorize w (announced_provider w) embeddings
                (fragments_of enriched) st3 = (st', Ok returned)
            ∧ trace st' = trace st3 ++ evs3
            ∧ attempts evs = attempts evs3 ∧ sleeps evs = sleeps evs3
            ∧ r = Ok match returned with
                     | Some message => message
                     | None => success_message (length enriched)
                     end)).
Proof.
  unfold update_knowledge_base. rewrite run_bind. unfold print at 1.
  rewrite run_emit. unfold try_except.
  match goal with |- context [update_knowledge_base_try w _ _ _ ?s] =>
    destruct (update_knowledge_base_try w tema max_papers sources s)
      as [st0 r0] eqn:Htry end.
  apply update_try_outcomes in Htry
    as (st1 & evs1 & Hdb & Htr & Hquiet
        & [[-> ->] | (enriched & line & Hne
                      & [(e & Hemb & -> & ->)
                        | (emb & returned & line' & Hemb & Hrun & ->)])]).
  - intros [= <- <-]. eexists (_ :: evs1).
    split; [rewrite Htr; simpl; by rewrite <- app_assoc|].
    left. split; [done|]. split; [done|].
    change (?x :: evs1) with ([x] ++ evs1). rewrite attempts_app, sleeps_app.
    by destruct (before_the_loop_quiet evs1 Hquiet) as [-> ->].
  - simpl. intros [= <- <-]. eexists (_ :: evs1 ++ [_; _]).
    split; [simpl; rewrite Htr; simpl; by rewrite <- !app_assoc|].
    right; left. exists e.
    split; [by eapply get_embeddings_anywhere|]. split; [done|]. split; [done|].
    change (?x :: evs1 ++ ?l) with ([x] ++ evs1 ++ l).
    rewrite !attempts_app, !sleeps_app.
    by destruct (before_the_loop_quiet evs1 Hquiet) as [-> ->].
  - intros [= <- <-].
    match type of Hrun with vectorize w ?p ?e ?d ?s = _ =>
      destruct (vectorize_outcome w p e d s)
        as (evs3 & returned' & st3 & Hrun' & Htr3 & _ & _) end.
    rewrite Hrun in Hrun'. injection Hrun' as <- <-.
    eexists (_ :: evs1 ++ [_; _] ++ [_] ++ evs3).
    split; [rewrite Htr3; simpl; rewrite Htr; simpl; by rewrite <- !app_assoc|].
    right; right. eexists emb, enriched, _, evs3, returned.
    split; [by eapply get_embeddings_anywhere|]. split; [done|].
    split; [|split; [exact Hrun|]]; [exact Hdb|]. split; [exact Htr3|].
    split; [|split; [|done]].
    + change (?x :: evs1 ++ ?l ++ ?k ++ evs3) with ([x] ++ evs1 ++ l ++ k ++ evs3).
      rewrite !attempts_app.
      by destruct (before_the_loop_quiet evs1 Hquiet) as [-> _].
    + change (?x :: evs1 ++ ?l ++ ?k ++ evs3) with ([x] ++ evs1 ++ l ++ k ++ evs3).
      rewrite !sleeps_app.
      by destruct (before_the_loop_quiet evs1 Hquiet) as [_ ->].
Qed.

(** C1 (as amended). Of the embedding failures that are not classified as
    rate-limit or quota, [update_knowledge_base] surfaces at once, as
    "Error processing papers: <cause>" and with no embedding request and no
    sleep, those that [get_embeddings] raises while it builds the model
    (missing credentials, unsupported provider). A failure of an embedding
    request is not surfaced at once: the call sleeps 2 s after the first
    failed request and tries again, 4 s after the second and tries a third
    time, and only when that third request fails too does it return
    "Error creating embeddings: <cause>", with the index as it was; when the
    second or the third request succeeds, the fragments are ingested and the
    call reports success. *)
Theorem non_transient_failures w tema max_papers sources st st' reply :
  update_knowledge_base w tema max_papers sources st = (st', reply) →
  ∃ evs,
    trace st' = trace st ++ evs
    ∧ ((reply = Ok (nothing_found_message sources)
        ∧ attempts evs = 0%nat ∧ sleeps evs = [] ∧ vector_db st' = vector_db st)
       ∨ ((∀ e,
             (get_embeddings w st).2 = Err e →
             reply = Ok (processing_error e)
             ∧ attempts evs = 0%nat ∧ sleeps evs = []
             ∧ vector_db st' = vector_db st)
          ∧ (∀ embeddings fault,
               (get_embeddings w st).2 = Ok embeddings →
               (∀ emb attempt texts,
                  embed_fault w emb attempt texts = fault attempt) →
               (∀ e0,
                  non_transient w fault 0 e0 → fault 1 = None →
                  attempts evs = 2%nat ∧ sleeps evs = [2]
                  ∧ reports_ingestion w st embeddings st' reply)
               ∧ (∀ e0 e1,
                    non_transient w fault 0 e0 → non_transient w fault 1 e1 →
                    fault 2 = None →
                    attempts evs = 3%nat ∧ sleeps evs = [2; 4]
                    ∧ reports_ingestion w st embeddings st' reply)
               ∧ (∀ e0 e1 e2,
                    non_transient w fault 0 e0 → non_transient w fault 1 e1 →
                    non_transient w fault 2 e2 →
                    attempts evs = 3%nat ∧ sleeps evs = [2; 4]
                    ∧ reply = Ok ("Error creating embeddings: " +:+ str e2)
                    ∧ vector_db st' = vector_db st)))).
Proof.
  intros Hcall.
  apply update_accounting in Hcall
    as (evs & Htrace
        & [(-> & Hdb & Hattempts & Hsleeps)
          | [(e & Hemb & -> & Hdb & Hattempts & Hsleeps)
            | (emb & enriched & st3 & evs3 & returned & Hemb & Hne & Hdb3 & Hrun
               & Htr3 & Hattempts & Hsleeps & ->)]]).
  - exists evs. split; [done|]. by left.
  - exists evs. split; [done|]. right. split.
    + intros e' He'. rewrite Hemb in He'. by injection He' as <-.
    + intros emb fault Hok. by rewrite Hemb in Hok.
  - exists evs. split; [done|]. right. split.
    { intros e He. by rewrite Hemb in He. }
    intros embeddings fault Hok Hfault. rewrite Hemb in Hok. injection Hok as <-.
    rewrite Hattempts, Hsleeps, attempts_effects, sleeps_effects.
    assert (∀ evs',
              trace st' = trace st3 ++ evs' → effects evs3 = effects evs') as Hsame.
    { intros evs' Heq. rewrite Htr3 in Heq. by apply app_inv_head in Heq as ->. }
    assert (ingested w st3 emb (fragments_of enriched)
            = ingested w st emb (fragments_of enriched)) as Hingested
      by (by apply ingested_ext).
    split; [|split].
    + intros e0 [H0 K0] H1.
      destruct (one_failure w (announced_provider w) emb (fragments_of enriched)
                  st3 e0) as (evs' & Hrun' & Heff);
        [by rewrite Hfault..|by rewrite K0|].
      rewrite Hrun in Hrun'. injection Hrun' as -> ->.
      rewrite (Hsame evs' eq_refl), Heff. repeat split.
      exists enriched. split; [done|]. split; [done|]. simpl. by rewrite Hingested.
    + intros e0 e1 [H0 K0] [H1 K1] H2.
      destruct (two_failures w (announced_provider w) emb (fragments_of enriched)
                  st3 e0 e1) as (evs' & Hrun' & Heff);
        [by rewrite Hfault..|by rewrite K0|by rewrite K1|].
      rewrite Hrun in Hrun'. injection Hrun' as -> ->.
      rewrite (Hsame evs' eq_refl), Heff. repeat split.
      exists enriched. split; [done|]. split; [done|]. simpl. by rewrite Hingested.
    + intros e0 e1 e2 [H0 K0] [H1 K1] [H2 K2].
      destruct (three_failures w (announced_provider w) emb (fragments_of enriched)
                  st3 e0 e1 e2) as (evs' & Hrun' & Heff);
        [by rewrite Hfault..|by rewrite K0|by rewrite K1|].
      rewrite Hrun in Hrun'. injection Hrun' as -> ->.
      rewrite (Hsame evs' eq_refl), Heff.
      unfold exhausted_message. rewrite K2. by repeat split.
Qed.

(** C1 as the spec states it fails: in the world [malformed] the embedding
    provider rejects the request with an error that is not classified as
    rate-limit or quota, and [update_knowledge_base] still makes three
    attempts and sleeps 2 s and 4 s before it returns the failure. *)
Lemma malformed_request_is_retried :
  let out := update_knowledge_base malformed "x" 10 "arxiv" initial_state in
  classify malformed "openai" (Raised ValueError "malformed request") = OtherFailure
  ∧ out.2 = Ok "Error creating embeddings: malformed request"
  ∧ attempts (trace out.1) = 3%nat
  ∧ sleeps (trace out.1) = [2; 4]
  ∧ ¬ (attempts (trace out.1) = 1%nat ∧ sleeps (trace out.1) = []).
Proof. vm_compute. repeat split; try done. by intros [? _]. Qed.

Lemma non_transient_failures_witness :
  (∃ evs,
     trace (update_knowledge_base malformed "x" 10 "arxiv" initial_state).1
     = trace initial_state ++ evs
     ∧ (update_knowledge_base malformed "x" 10 "arxiv" initial_state).2
       = Ok ("Error creating embeddings: " +:+ "malformed request")
     ∧ attempts evs = 3%nat ∧ sleeps evs = [2; 4]
     ∧ vector_db (update_knowledge_base malformed "x" 10 "arxiv" initial_state).1
       = vector_db initial_state)
  ∧ (∃ evs,
       trace (update_knowledge_base (with_env "EMBEDDING_PROVIDER" "gemini" calm)
                "x" 10 "arxiv" initial_state).1
       = trace initial_state ++ evs
       ∧ (update_knowledge_base (with_env "EMBEDDING_PROVIDER" "gemini" calm)
            "x" 10 "arxiv" initial_state).2
         = Ok (processing_error
                 (Raised ValueError "GOOGLE_API_KEY not found in .env"))
       ∧ attempts evs = 0%nat ∧ sleeps evs = []).
Proof.
  split.
  - destruct (non_transient_failures malformed "x" 10 "arxiv" initial_state
                (update_knowledge_base malformed "x" 10 "arxiv" initial_state).1
                (update_knowledge_base malformed "x" 10 "arxiv" initial_state).2)
      as (evs & Htrace & [[Hnothing _] | [_ Hloop]]).
    { vm_compute. reflexivity. }
    { vm_compute in Hnothing. discriminate. }
    destruct (Hloop (OllamaEmbeddings "nomic-embed-text" "http://localhost:11434")
                (λ _, Some (Raised ValueError "malformed request")))
      as (_ & _ & Hthree).
    { vm_compute. reflexivity. }
    { intros emb attempt texts. reflexivity. }
    destruct (Hthree (Raised ValueError "malformed request")
                (Raised ValueError "malformed request")
                (Raised ValueError "malformed request"))
      as (Hattempts & Hsleeps & Hreply & Hdb).
    { split; vm_compute; reflexivity. }
    { split; vm_compute; reflexivity. }
    { split; vm_compute; reflexivity. }
    exists evs. by repeat split.
  - destruct (non_transient_failures (with_env "EMBEDDING_PROVIDER" "gemini" calm)
                "x" 10 "arxiv" initial_state
                (update_knowledge_base (with_env "EMBEDDING_PROVIDER" "gemini" calm)
                   "x" 10 "arxiv" initial_state).1
                (update_knowledge_base (with_env "EMBEDDING_PROVIDER" "gemini" calm)
                   "x" 10 "arxiv" initial_state).2)
      as (evs & Htrace & [[Hnothing _] | [Hmodel _]]).
    { vm_compute. reflexivity. }
    { vm_compute in Hnothing. discriminate. }
    destruct (Hmodel (Raised ValueError "GOOGLE_API_KEY not found in .env"))
      as (Hreply & Hattempts & Hsleeps & Hdb).
    { vm_compute. reflexivity. }
    exists evs. by repeat split.
Defined.

(** ** Sample runs *)

(** C7 as the spec states it fails: Semantic Scholar answers 429, the adapter
    returns the empty sequence, and nothing was logged. *)
Lemma http_error_is_not_logged :
  let out := search_semantic_scholar sources_down "llm" 5 initial_state in
  http_answer sources_down s2_url (s2_params "llm" 5) (s2_headers sources_down) 10
  = Ok {| status_code := 429;
          json_body := Ok (JObj {["message" := JStr "Too Many Requests"]}) |}
  ∧ out.2 = Ok []
  ∧ trace out.1 = [HttpGet s2_url (s2_params "llm" 5) [] 10]
  ∧ ¬ ∃ line, Print line ∈ trace out.1.
Proof.
  repeat split.
  intros (line & Hin). simpl in Hin.
  apply list_elem_of_singleton in Hin. discriminate.
Qed.

Lemma adapters_contain_failures_witness :
  search_arxiv sources_down "llm" 5 initial_state
  = ({| vector_db := None;
        trace := [ArxivLoad "llm" 5;
                  Print "⚠️  Erro ao buscar ArXiv: Connection refused"] |}, Ok [])
  ∧ search_semantic_scholar (with_http (Err (Raised ConnectionError "timed out")) calm)
      "llm" 5 initial_state
    = ({| vector_db := None;
          trace := [HttpGet s2_url (s2_params "llm" 5) [] 10;
                    Print "⚠️  Erro ao buscar Semantic Scholar: timed out"] |}, Ok [])
  ∧ search_semantic_scholar sources_down "llm" 5 initial_state
    = ({| vector_db := None;
          trace := [HttpGet s2_url (s2_params "llm" 5) [] 10] |}, Ok [])
  ∧ search_semantic_scholar
      (with_http (Ok {| status_code := 200;
                        json_body := Ok (JObj {["total" := JNum 0]}) |}) calm)
      "llm" 5 initial_state
    = ({| vector_db := None;
          trace := [HttpGet s2_url (s2_params "llm" 5) [] 10] |}, Ok []).
Proof.
  split; [|split; [|split]].
  - apply (proj1 (proj2 (proj2 (adapters_contain_failures sources_down "llm" 5
                                  initial_state)))
             {| vector_db := None; trace := [ArxivLoad "llm" 5] |}
             (Raised ConnectionError "Connection refused")).
    reflexivity.
  - apply (proj1 (proj2 (proj2 (proj2 (adapters_contain_failures
                                         (with_http (Err (Raised ConnectionError "timed out")) calm)
                                         "llm" 5 initial_state))))
             {| vector_db := None; trace := [HttpGet s2_url (s2_params "llm" 5) [] 10] |}
             (Raised ConnectionError "timed out")).
    reflexivity.
  - apply (proj1 (proj2 (proj2 (proj2 (proj2 (adapters_contain_failures
                                                sources_down "llm" 5
                                                initial_state)))))
             {| status_code := 429;
                json_body := Ok (JObj {["message" := JStr "Too Many Requests"]}) |});
      [reflexivity|reflexivity|done].
  - apply (proj2 (proj2 (proj2 (proj2 (proj2 (adapters_contain_failures
             (with_http (Ok {| status_code := 200;
                               json_body := Ok (JObj {["total" := JNum 0]}) |}) calm)
             "llm" 5 initial_state)))))
             {| status_code := 200; json_body := Ok (JObj {["total" := JNum 0]}) |}
             {["total" := JNum 0]});
      reflexivity.
Defined.



Lemma query_before_ingestion_witness :
  query_rag calm "What is new in machine learning?" initial_state
  = (initial_state, Ok "The knowledge base is empty. Use 'update_knowledge_base' first.").
Proof. apply query_before_ingestion. reflexivity. Defined.

Lemma opening_print_escapes_witness :
  update_knowledge_base_on utf8_stdout calm lone_surrogate 10 "arxiv" initial_state
  = (initial_state,
     Err (Raised UnicodeEncodeError
            ("'utf-8' codec can't encode character '\ud800' in position 37: "
             +:+ "surrogates not allowed"))).
Proof.
  apply (proj1 (opening_print_escapes utf8_stdout calm lone_surrogate 10 "arxiv"
                  initial_state)).
  vm_compute. reflexivity.
Defined.

Lemma retry_bound_witness :
  (∃ evs,
     vectorize throttled "openai" (OpenAIEmbeddings "text-embedding-3-small")
       [paper] initial_state
     = (logged initial_state evs,
        Ok (Some ("Error: OpenAI quota exceeded. Check: "
                  +:+ "https://platform.openai.com/account/billing"
                  +:+ " or use EMBEDDING_PROVIDER=gemini/local")))
     ∧ attempts evs = 3%nat ∧ sleeps evs = [2; 4]) ∧
  (∃ evs,
     vectorize throttled_once "local" (OllamaEmbeddings "nomic-embed-text" "")
       [paper] initial_state
     = ({| vector_db :=
             Some {| embedding_function := OllamaEmbeddings "nomic-embed-text" "";
                     index := [([], paper)] |};
           trace := evs |}, Ok None)
     ∧ sleeps evs = [2]).
Proof.
  split.
  - destruct (proj1 (retry_bound throttled "openai"
                       (OpenAIEmbeddings "text-embedding-3-small") [paper]
                       initial_state))
      as (evs & e & [= <-] & Hrun & _ & Hattempts & Hsleeps).
    { intros attempt. eexists. split; [reflexivity|by left]. }
    by exists evs.
  - destruct (proj2 (retry_bound throttled_once "local"
                       (OllamaEmbeddings "nomic-embed-text" "") [paper]
                       initial_state) 1)
      as (evs & Hrun & Heff); [done| |reflexivity|].
    { intros attempt Hattempt. exists (Raised Exception "Error code: 429").
      split; [|by right]. simpl.
      by rewrite (proj2 (Z.ltb_lt attempt 1)) by lia. }
    exists evs. split; [exact Hrun|]. by rewrite sleeps_effects, Heff.
Defined.

Lemma split_two_ingested_documents_witness :
  ∃ e1 e2,
    enrich_documents calm [long_paper; long_paper] initial_state
    = (initial_state, Ok [e1; e2])
    ∧ char_length (page_content e1) = 2547%nat
    ∧ RecursiveCharacterTextSplitter 1000 100
      = Ok {| chunk_size := 1000; chunk_overlap := 100 |}
    ∧ metadata e1 = metadata long_paper ∧ metadata e2 = metadata long_paper
    ∧ (∃ header, page_content e1 = header +:+ page_content long_paper)
    ∧ (∃ header, page_content e2 = header +:+ page_content long_paper)
    ∧ ∃ a0 a1 a2 b0 b1 b2,
        split_documents {| chunk_size := 1000; chunk_overlap := 100 |} [e1; e2]
        = [fragment e1 a0; fragment e1 a1; fragment e1 a2;
           fragment e2 b0; fragment e2 b1; fragment e2 b2]
        ∧ three_windows 100 (page_content e1) a0 a1 a2
        ∧ three_windows 100 (page_content e2) b0 b1 b2.
Proof.
  eexists _, _. split; [vm_compute; reflexivity|].
  split; [vm_compute; reflexivity|].
  apply (split_two_ingested_documents calm long_paper long_paper _ _ initial_state);
    try (vm_compute; reflexivity);
    apply Nat.leb_le; vm_compute; reflexivity.
Defined.

(** C8 as the spec states it fails: a document of 2500 characters whose
    title has 260 is handed to the splitter with an enriched content of 2806
    characters, and gives 4 fragments; two of them give 8, and ingesting two
    of them from arXiv puts 8 fragments into the index. *)
Lemma long_title_gives_four_fragments :
  char_length (page_content long_titled) = 2500%nat
  ∧ ∃ enriched,
      enrich_documents calm [long_titled; long_titled] initial_state
      = (initial_state, Ok [enriched; enriched])
      ∧ char_length (page_content enriched) = 2806%nat
      ∧ length (split_text {| chunk_size := 1000; chunk_overlap := 100 |}
                  (page_content enriched)) = 4%nat
      ∧ length (split_documents {| chunk_size := 1000; chunk_overlap := 100 |}
                  [enriched; enriched]) = 8%nat
      ∧ length (split_documents {| chunk_size := 1000; chunk_overlap := 100 |}
                  [enriched; enriched]) ≠ 6%nat
      ∧ (update_knowledge_base (with_arxiv (Ok [long_titled; long_titled]) calm)
           "x" 10 "arxiv" initial_state).2
        = Ok "Success! 2 papers were indexed in the RAG."
      ∧ index_size
          (update_knowledge_base (with_arxiv (Ok [long_titled; long_titled]) calm)
             "x" 10 "arxiv" initial_state).1 = 8%nat.
Proof.
  split; [vm_compute; reflexivity|]. eexists.
  split; [vm_compute; reflexivity|].
  split; [vm_compute; reflexivity|].
  split; [vm_compute; reflexivity|].
  split; [vm_compute; reflexivity|].
  split; [vm_compute; discriminate|].
  split; vm_compute; reflexivity.
Qed.

(** The string functions on the inputs the code gives them. *)
Example split_examples :
  split "," "arxiv,semantic_scholar" = ["arxiv"; "semantic_scholar"] ∧
  split "," "" = [""] ∧ split "," "a,,b," = ["a"; ""; "b"; ""] ∧
  strip "  ArXiv " = "ArXiv" ∧ lower "ArXiv" = "arxiv" ∧
  strip (point_of [194; 160]%nat +:+ "arxiv" +:+ point_of [226; 128; 137]%nat)
  = "arxiv" ∧
  char_length "TÍTULO" = 6%nat ∧ chars_to 2 "TÍTULO" = "TÍ" ∧
  source_ids "arXiv, Semantic_Scholar" = ["arxiv"; "semantic_scholar"] ∧
  replace "search_" "" "search_semantic_scholar" = "semantic_scholar" ∧
  contains "quota" "insufficient_quota" = true ∧ contains "429" "42 9" = false.
Proof. repeat split; reflexivity. Qed.

(** Two documents of 2500 characters with a short title, ingested from
    arXiv, put 6 fragments into the index. *)
Example six_fragments :
  index_size
    (update_knowledge_base (with_arxiv (Ok [long_paper; long_paper]) calm)
       "x" 10 "arxiv" initial_state).1 = 6%nat.
Proof. vm_compute. reflexivity. Qed.

(** A line that the output refuses inside the [try] of
    [update_knowledge_base] comes back as a message: here the line that
    names the sources. *)
Example refused_line_inside_try :
  (update_knowledge_base_on utf8_stdout calm "llm" 10 lone_surrogate
     initial_state).2
  = Ok ("Error processing papers: 'utf-8' codec can't encode character "
        +:+ "'\ud800' in position 25: surrogates not allowed").
Proof. vm_compute. reflexivity. Qed.

(** One ingestion in the calm world, then a second one: the index has one
    fragment, then two. *)
Example two_ingestions :
  index_size (run [Update calm "llm" 10 "arxiv"]) = 1%nat ∧
  index_size (run [Update calm "llm" 10 "arxiv"; Query calm "?";
                   Update calm "llm" 10 "arxiv"]) = 2%nat.
Proof. split; vm_compute; reflexivity. Qed.

(** A rate limit that never lifts, and one that lifts after the first
    attempt, seen from [update_knowledge_base]. *)
Example rate_limited_runs :
  let always := update_knowledge_base throttled "llm" 10 "arxiv" initial_state in
  let once := update_knowledge_base throttled_once "llm" 10 "arxiv" initial_state in
  always.2 = Ok ("Error: OpenAI quota exceeded. Check: "
                 +:+ "https://platform.openai.com/account/billing"
                 +:+ " or use EMBEDDING_PROVIDER=gemini/local")
  ∧ attempts (trace always.1) = 3%nat ∧ sleeps (trace always.1) = [2; 4]
  ∧ index_size always.1 = 0%nat
  ∧ once.2 = Ok "Success! 1 papers were indexed in the RAG."
  ∧ attempts (trace once.1) = 2%nat ∧ sleeps (trace once.1) = [2]
  ∧ index_size once.1 = 1%nat.
Proof. vm_compute. by repeat split. Qed.

(** A Semantic Scholar answer with one paper whose abstract is [null], cut
    to the limit; and an answer whose author list is [null], which makes the
    adapter log the [TypeError] and return nothing. *)
Example semantic_scholar_answers :
  let item := JObj {["title" := JStr "T"; "year" := JNum 2020;
                     "abstract" := JNull; "paperId" := JStr "p1";
                     "authors" := JArr [JObj {["name" := JStr "A"]};
                                        JObj {["name" := JStr "B"]}]]} in
  let answer items :=
    with_http (Ok {| status_code := 200;
                     json_body := Ok (JObj {["data" := JArr items]}) |}) calm in
  match (search_semantic_scholar (answer [item; item]) "llm" 1 initial_state).2 with
  | Ok docs => page_content <$> docs
  | Err _ => []
  end
  = ["TÍTULO: T" +:+ nl +:+ "AUTORES: A, B" +:+ nl +:+ "ANO: 2020" +:+ nl +:+ nl
     +:+ "RESUMO: None"]
  ∧ search_semantic_scholar (answer [JObj {["authors" := JNull]}]) "llm" 1
      initial_state
    = ({| vector_db := None;
          trace := [HttpGet s2_url (s2_params "llm" 1) [] 10;
                    Print ("⚠️  Erro ao buscar Semantic Scholar: "
                           +:+ "'NoneType' object is not iterable")] |}, Ok []).
Proof. split; vm_compute; reflexivity. Qed.
